(** * Chat client session: connection, room membership and message log

    A shallow embedding of the [ChatComponent] React component
    (src/unnamed/part_001, with its older sibling src/src/ChatComponent.tsx),
    the event names of src/src/chat-event.ts and the [User] interface of
    src/unnamed/part_000.

    How the component is read:
    - the nine [useState] cells form the record [Hooks];
    - a handler runs against the values of the render it was created in
      (its closure) and only queues updates ([setX v] or [setX f]); the
      queue is committed when the handler returns ([commit]);
    - what a handler does to the outside (socket.io, FileReader, axios) is
      logged as a list of [Effect]s and applied to [Env], the part of the
      browser the component talks to;
    - the two [useEffect]s keyed on [authToken] re-run when the committed
      token differs from the rendered one; the clean-up of the connect
      effect keeps the [socket] of the render in which the effect last ran.

    [console.log] and [console.error] calls touch neither the hooks nor the
    wire and are left out. The sibling component has the same handlers; it
    lacks the [currentUser] hook and the user fetch, and logs when a send
    is refused. *)

From Stdlib Require Import String List Bool Arith ZArith Lia.
Import ListNotations.
Open Scope string_scope.
Open Scope list_scope.

(** ** Data *)

(** src/src/chat-event.ts *)
Module ChatEvents.
Module FromClient.
Definition SendTextMessage := "sendTextMessage".
Definition SendFileMessage := "sendFileMessage".
Definition JoinRoom := "joinRoom".
Definition LeaveRoom := "leaveRoom".
End FromClient.
Module FromServer.
Definition NewMessage := "newMessage".
Definition NewMessages := "newMessages".
Definition Exception := "exception".
End FromServer.
End ChatEvents.

(** src/unnamed/part_000 *)
Inductive UserStatus := ACTIVE | INCOMPLETE_PROFILE.
Inductive SignInProvider := KAKAO | APPLE.
Inductive UserGrade := First | Second | Third.

Record User := {
  user_id : Z;
  status : UserStatus;
  provider : SignInProvider;
  schoolId : Z;
  schoolName : Z;
  grade : UserGrade;
  className : string;
  fullName : string;
  profileImageUrl : string;
  backgroundImageUrl : string;
  isClassPublic : bool;
  isTimetablePublic : bool;
  notificationsEnabled : bool
}.

Inductive MessageType := TEXT | FILE | SYSTEM.

Record ChatRoom := {
  room_id : string;
  room_name : string;
  participantsCount : Z;
  unreadMessageCount : Z;
  lastMessage : string;
  timeAgo : string
}.

Record Sender := {
  sender_id : Z;
  sender_name : string;
  sender_profileImageUrl : option string
}.

Record FileInfo := {
  file_url : string;
  file_name : string;
  file_size : Z
}.

Record Message := {
  type : MessageType;
  sender : option Sender;
  content : option string;
  file_info : option FileInfo;
  sentAt : Z
}.

(** A browser [File]: what [sendFileMessage] reads of it. *)
Record File := {
  name : string;
  mime : string;
  size : Z
}.

(** The bytes [readAsArrayBuffer] delivers. *)
Definition ArrayBuffer := list Byte.byte.

(** A socket.io handle, named by the order in which [io] returned it. *)
Definition Socket := nat.

(** JavaScript truthiness of a string: every string but the empty one. *)
Definition truthy (s : string) : bool := negb (s =? "").

(** ** The hooks *)

Record Hooks := {
  socket : option Socket;
  authToken : string;
  chatRooms : list ChatRoom;
  currentRoom : option string;
  messages : list Message;
  inputMessage : string;
  file : option File;
  isConnected : bool;
  currentUser : option User
}.

(** The [useState] initial values. *)
Definition initialHooks : Hooks := {|
  socket := None;
  authToken := "";
  chatRooms := [];
  currentRoom := None;
  messages := [];
  inputMessage := "";
  file := None;
  isConnected := false;
  currentUser := None
|}.

(** A queued state update. [UMessages] carries an updater function, since
    the message handlers use the functional form of [setMessages]. *)
Inductive Update :=
| USocket (v : option Socket)
| UAuthToken (v : string)
| UChatRooms (v : list ChatRoom)
| UCurrentRoom (v : option string)
| UMessages (f : list Message -> list Message)
| UInputMessage (v : string)
| UFile (v : option File)
| UIsConnected (v : bool)
| UCurrentUser (v : option User).

Definition apply_update (h : Hooks) (u : Update) : Hooks :=
  match u with
  | USocket v =>
      {| socket := v; authToken := authToken h; chatRooms := chatRooms h;
         currentRoom := currentRoom h; messages := messages h;
         inputMessage := inputMessage h; file := file h;
         isConnected := isConnected h; currentUser := currentUser h |}
  | UAuthToken v =>
      {| socket := socket h; authToken := v; chatRooms := chatRooms h;
         currentRoom := currentRoom h; messages := messages h;
         inputMessage := inputMessage h; file := file h;
         isConnected := isConnected h; currentUser := currentUser h |}
  | UChatRooms v =>
      {| socket := socket h; authToken := authToken h; chatRooms := v;
         currentRoom := currentRoom h; messages := messages h;
         inputMessage := inputMessage h; file := file h;
         isConnected := isConnected h; currentUser := currentUser h |}
  | UCurrentRoom v =>
      {| socket := socket h; authToken := authToken h; chatRooms := chatRooms h;
         currentRoom := v; messages := messages h;
         inputMessage := inputMessage h; file := file h;
         isConnected := isConnected h; currentUser := currentUser h |}
  | UMessages f =>
      {| socket := socket h; authToken := authToken h; chatRooms := chatRooms h;
         currentRoom := currentRoom h; messages := f (messages h);
         inputMessage := inputMessage h; file := file h;
         isConnected := isConnected h; currentUser := currentUser h |}
  | UInputMessage v =>
      {| socket := socket h; authToken := authToken h; chatRooms := chatRooms h;
         currentRoom := currentRoom h; messages := messages h;
         inputMessage := v; file := file h;
         isConnected := isConnected h; currentUser := currentUser h |}
  | UFile v =>
      {| socket := socket h; authToken := authToken h; chatRooms := chatRooms h;
         currentRoom := currentRoom h; messages := messages h;
         inputMessage := inputMessage h; file := v;
         isConnected := isConnected h; currentUser := currentUser h |}
  | UIsConnected v =>
      {| socket := socket h; authToken := authToken h; chatRooms := chatRooms h;
         currentRoom := currentRoom h; messages := messages h;
         inputMessage := inputMessage h; file := file h;
         isConnected := v; currentUser := currentUser h |}
  | UCurrentUser v =>
      {| socket := socket h; authToken := authToken h; chatRooms := chatRooms h;
         currentRoom := currentRoom h; messages := messages h;
         inputMessage := inputMessage h; file := file h;
         isConnected := isConnected h; currentUser := v |}
  end.

(** React applies the queued updates in the order they were queued. *)
Definition commit (h : Hooks) (q : list Update) : Hooks :=
  fold_left apply_update q h.

(** ** The outside world *)

(** Payloads of the four client events. *)
Inductive ClientEvent :=
| SendTextMessage (roomId content : string)
| SendFileMessage (roomId fileName fileType : string) (fileSize : Z)
                  (fileData : ArrayBuffer)
| JoinRoom (roomId : string)
| LeaveRoom (roomId : string).

Definition event_name (e : ClientEvent) : string :=
  match e with
  | SendTextMessage _ _ => ChatEvents.FromClient.SendTextMessage
  | SendFileMessage _ _ _ _ _ => ChatEvents.FromClient.SendFileMessage
  | JoinRoom _ => ChatEvents.FromClient.JoinRoom
  | LeaveRoom _ => ChatEvents.FromClient.LeaveRoom
  end.

(** What a handler does to the outside, in program order. *)
Inductive Effect :=
| Io (token : string) (s : Socket)        (* io(`${SOCKET_URL}/chat`, ...) returned s *)
| Emit (s : Socket) (e : ClientEvent)     (* s.emit(event_name e, payload) *)
| Disconnect (s : Socket)                 (* s.disconnect() *)
| ReadAsArrayBuffer (f : File)            (* reader.readAsArrayBuffer(f) *)
| Get (path : string) (token : string).   (* axios.get(`${API_URL}${path}`, bearer token) *)

(** The closure of [reader.onload] in [sendFileMessage]: the [socket],
    [file] and [currentRoom] of the render the send was clicked in. *)
Record Reader := {
  r_socket : Socket;
  r_file : File;
  r_room : string
}.

(** The part of the browser the component talks to: how many sockets [io]
    has returned so far (handles [0 .. created-1]), on which of them
    [disconnect()] was called, the file reads still running and the HTTP
    requests still in flight. *)
Record Env := {
  created : nat;
  closed : list Socket;
  readers : list Reader;
  userRequests : nat;
  roomRequests : nat
}.

Definition initialEnv : Env :=
  {| created := 0; closed := []; readers := []; userRequests := 0;
     roomRequests := 0 |}.

Definition is_closed (e : Env) (s : Socket) : bool :=
  existsb (Nat.eqb s) (closed e).

(** A connection is active from [io] until [disconnect()] is called on it. *)
Definition active (e : Env) (s : Socket) : bool :=
  Nat.ltb s (created e) && negb (is_closed e s).

Definition active_sockets (e : Env) : list Socket :=
  filter (active e) (seq 0 (created e)).

(** ** Handlers as commands

    A command threads the update queue, the effect log and the
    environment; the rendered [Hooks] are an argument of each handler. *)

Record Run := {
  queue : list Update;
  out : list Effect;
  renv : Env
}.

Definition Cmd := Run -> Run.

Definition skip : Cmd := fun r => r.

Definition andThen (c1 c2 : Cmd) : Cmd := fun r => c2 (c1 r).

Declare Scope cmd_scope.
Delimit Scope cmd_scope with cmd.
Bind Scope cmd_scope with Cmd.
Notation "c1 ;; c2" := (andThen c1 c2)
  (at level 61, left associativity) : cmd_scope.
Open Scope cmd_scope.

Definition enqueue (u : Update) : Cmd := fun r =>
  {| queue := queue r ++ [u]; out := out r; renv := renv r |}.

Definition perform (x : Effect) (f : Env -> Env) : Cmd := fun r =>
  {| queue := queue r; out := out r ++ [x]; renv := f (renv r) |}.

Definition setSocket v := enqueue (USocket v).
Definition setAuthToken v := enqueue (UAuthToken v).
Definition setChatRooms v := enqueue (UChatRooms v).
Definition setCurrentRoom v := enqueue (UCurrentRoom v).
Definition setMessages v := enqueue (UMessages (fun _ => v)).
Definition updMessages f := enqueue (UMessages f).
Definition setInputMessage v := enqueue (UInputMessage v).
Definition setFile v := enqueue (UFile v).
Definition setIsConnected v := enqueue (UIsConnected v).
Definition setCurrentUser v := enqueue (UCurrentUser v).

(** [io(url, { auth: { token } })]: a new handle, connecting on its own. *)
Definition io (token : string) (k : Socket -> Cmd) : Cmd := fun r =>
  let s := created (renv r) in
  k s (perform (Io token s)
         (fun e => {| created := S (created e); closed := closed e;
                      readers := readers e; userRequests := userRequests e;
                      roomRequests := roomRequests e |}) r).

Definition emit (s : Socket) (e : ClientEvent) : Cmd :=
  perform (Emit s e) (fun e => e).

(** [s.disconnect()]; calling it on a closed socket changes nothing. *)
Definition disconnect (s : Socket) : Cmd :=
  perform (Disconnect s)
    (fun e => if is_closed e s then e
              else {| created := created e; closed := s :: closed e;
                      readers := readers e; userRequests := userRequests e;
                      roomRequests := roomRequests e |}).

Definition readAsArrayBuffer (c : Reader) : Cmd :=
  perform (ReadAsArrayBuffer (r_file c))
    (fun e => {| created := created e; closed := closed e;
                 readers := readers e ++ [c]; userRequests := userRequests e;
                 roomRequests := roomRequests e |}).

Definition getUser (token : string) : Cmd :=
  perform (Get "/user" token)
    (fun e => {| created := created e; closed := closed e;
                 readers := readers e; userRequests := S (userRequests e);
                 roomRequests := roomRequests e |}).

Definition getChatRooms (token : string) : Cmd :=
  perform (Get "/chat/rooms" token)
    (fun e => {| created := created e; closed := closed e;
                 readers := readers e; userRequests := userRequests e;
                 roomRequests := S (roomRequests e) |}).

(** ** The component's handlers *)

(** What the server side of a socket can deliver to the listeners that
    [connectSocket] registers: ["connect"], ["connect_error"],
    ["disconnect"], [ChatEvents.FromServer.NewMessage], [.NewMessages] and
    [.Exception]. *)
Inductive ServerEvent :=
| EvConnect
| EvConnectError
| EvDisconnect
| EvNewMessage (message : Message)
| EvNewMessages (newMessages : list Message)
| EvException.

(** The listeners. They close over the setters only, so they are the same
    for every socket and every render. *)
Definition listener (ev : ServerEvent) : Cmd :=
  match ev with
  | EvConnect => setIsConnected true
  | EvConnectError => setIsConnected false
  | EvDisconnect => setIsConnected false
  | EvNewMessage message =>
      updMessages (fun prevMessages => prevMessages ++ [message])
  | EvNewMessages newMessages =>
      updMessages (fun prevMessages => prevMessages ++ newMessages)
  | EvException => skip
  end.

Definition connectSocket (h : Hooks) : Cmd :=
  if truthy (authToken h) then
    io (authToken h) (fun newSocket => setSocket (Some newSocket))
  else skip.

Definition fetchUserInfo (h : Hooks) : Cmd := getUser (authToken h).

Definition fetchChatRooms (h : Hooks) : Cmd := getChatRooms (authToken h).

Definition leaveRoom (h : Hooks) : Cmd :=
  match socket h, currentRoom h with
  | Some s, Some room =>
      if truthy room then
        emit s (LeaveRoom room) ;; setCurrentRoom None ;; setMessages []
      else skip
  | _, _ => skip
  end.

Definition joinRoom (roomId : string) (h : Hooks) : Cmd :=
  match socket h with
  | Some s =>
      if truthy roomId then
        (match currentRoom h with
         | Some room => if truthy room then leaveRoom h else skip
         | None => skip
         end) ;;
        emit s (JoinRoom roomId) ;; setCurrentRoom (Some roomId) ;;
        setMessages []
      else skip
  | None => skip
  end.

Definition sendTextMessage (h : Hooks) : Cmd :=
  match socket h, currentRoom h with
  | Some s, Some room =>
      if truthy (inputMessage h) && truthy room then
        emit s (SendTextMessage room (inputMessage h)) ;; setInputMessage ""
      else skip
  | _, _ => skip
  end.

Definition sendFileMessage (h : Hooks) : Cmd :=
  match socket h, file h, currentRoom h with
  | Some s, Some f, Some room =>
      if truthy room then
        readAsArrayBuffer {| r_socket := s; r_file := f; r_room := room |}
      else skip
  | _, _, _ => skip
  end.

(** How a file read ends. A failed read fires ["error"], for which no
    listener is set; a finished one fires ["load"] with [e.target.result],
    an [ArrayBuffer] (an object, so truthy whatever its length) or null. *)
Inductive ReadOutcome :=
| Loaded (result : option ArrayBuffer)
| Failed.

(** [reader.onload] *)
Definition onload (c : Reader) (result : option ArrayBuffer) : Cmd :=
  match result with
  | Some arrayBuffer =>
      emit (r_socket c)
        (SendFileMessage (r_room c) (name (r_file c)) (mime (r_file c))
           (size (r_file c)) arrayBuffer) ;;
      setFile None
  | None => skip
  end.

Definition exitChatApplication (h : Hooks) : Cmd :=
  (match socket h with Some s => disconnect s | None => skip end) ;;
  setAuthToken "" ;;
  setChatRooms [] ;;
  setCurrentRoom None ;;
  setMessages [] ;;
  setIsConnected false ;;
  setCurrentUser None.

(** ** The component as a transition system *)

(** The component between two events: the committed hooks, the [socket]
    the pending clean-up of the connect effect closed over, and the
    environment. *)
Record Sys := {
  hooks : Hooks;
  cleanupSocket : option Socket;
  env : Env
}.

(** After the first render: both effects ran with an empty token, so
    nothing was fetched or connected and the clean-up holds [null]. *)
Definition init : Sys :=
  {| hooks := initialHooks; cleanupSocket := None; env := initialEnv |}.

Inductive Action :=
(* the user *)
| TypeAuthToken (v : string)
| ClickConnect
| ClickFetchChatRooms
| ClickExit
| ClickJoin (roomId : string)
| ClickLeave
| TypeInputMessage (v : string)
| SelectFile (f : option File)
| ClickSendText
| ClickSendFile
(* the outside *)
| SocketEvent (s : Socket) (ev : ServerEvent)
| Ack (response : string)
| ReaderDone (i : nat) (outcome : ReadOutcome)
| UserResponse (data : option User)
| RoomsResponse (list : option (list ChatRoom)).

(** Book-keeping of the environment that leaves no trace in the log. *)
Definition settle (f : Env -> Env) : Cmd := fun r =>
  {| queue := queue r; out := out r; renv := f (renv r) |}.

Definition drop_reader (i : nat) (e : Env) : Env :=
  {| created := created e; closed := closed e;
     readers := firstn i (readers e) ++ skipn (S i) (readers e);
     userRequests := userRequests e; roomRequests := roomRequests e |}.

Definition user_answered (e : Env) : Env :=
  {| created := created e; closed := closed e; readers := readers e;
     userRequests := pred (userRequests e); roomRequests := roomRequests e |}.

Definition rooms_answered (e : Env) : Env :=
  {| created := created e; closed := closed e; readers := readers e;
     userRequests := userRequests e; roomRequests := pred (roomRequests e) |}.

(** The code that runs for an action, against the rendered hooks. The
    acknowledgement callbacks of the two sends and the [catch] branches of
    the two fetches only log. *)
Definition handle (a : Action) (sys : Sys) : Cmd :=
  let h := hooks sys in
  match a with
  | TypeAuthToken v => setAuthToken v
  | ClickConnect => connectSocket h
  | ClickFetchChatRooms => fetchChatRooms h
  | ClickExit => exitChatApplication h
  | ClickJoin roomId => joinRoom roomId h
  | ClickLeave => leaveRoom h
  | TypeInputMessage v => setInputMessage v
  | SelectFile f => setFile f
  | ClickSendText => sendTextMessage h
  | ClickSendFile => sendFileMessage h
  | SocketEvent _ ev => listener ev
  | Ack _ => skip
  | ReaderDone i outcome =>
      match nth_error (readers (env sys)) i with
      | Some c =>
          settle (drop_reader i) ;;
          match outcome with
          | Loaded result => onload c result
          | Failed => skip
          end
      | None => skip
      end
  | UserResponse data =>
      settle user_answered ;;
      match data with
      | Some u => setCurrentUser (Some u)
      | None => skip
      end
  | RoomsResponse data =>
      settle rooms_answered ;;
      match data with
      | Some l => setChatRooms l
      | None => skip
      end
  end.

(** The effects keyed on [authToken] ([connectSocket] is memoised on it):
    first the clean-up of the connect effect, with the socket it closed
    over, then the user fetch and [connectSocket] of the new render. *)
Definition rerunEffects (cleanup : option Socket) (h : Hooks) : Cmd :=
  (match cleanup with Some s => disconnect s | None => skip end) ;;
  (if truthy (authToken h) then fetchUserInfo h else skip) ;;
  connectSocket h.

Definition start (e : Env) : Run := {| queue := []; out := []; renv := e |}.

(** One event: run its handler, commit, and when the token changed run
    the effects of the new render and commit what they queued. *)
Definition step (sys : Sys) (a : Action) : Sys * list Effect :=
  let r1 := handle a sys (start (env sys)) in
  let h1 := commit (hooks sys) (queue r1) in
  if authToken h1 =? authToken (hooks sys) then
    ({| hooks := h1; cleanupSocket := cleanupSocket sys; env := renv r1 |},
     out r1)
  else
    let r2 := rerunEffects (cleanupSocket sys) h1 (start (renv r1)) in
    ({| hooks := commit h1 (queue r2); cleanupSocket := socket h1;
        env := renv r2 |},
     out r1 ++ out r2).

Definition next (sys : Sys) (a : Action) : Sys := fst (step sys a).
Definition emitted (sys : Sys) (a : Action) : list Effect := snd (step sys a).

Definition run (sys : Sys) (l : list Action) : Sys := fold_left next l sys.

(** What the outside can do: a socket delivers events once [io] returned
    it and until [disconnect()] is called on it, after which it can still
    report ["disconnect"]; reads and requests end only if started. *)
Definition enabled (sys : Sys) (a : Action) : bool :=
  match a with
  | SocketEvent s EvDisconnect => Nat.ltb s (created (env sys))
  | SocketEvent s _ => active (env sys) s
  | ReaderDone i _ => Nat.ltb i (length (readers (env sys)))
  | UserResponse _ => Nat.ltb 0 (userRequests (env sys))
  | RoomsResponse _ => Nat.ltb 0 (roomRequests (env sys))
  | _ => true
  end.

Definition inRoom (h : Hooks) : bool :=
  match currentRoom h with
  | Some room => truthy room
  | None => false
  end.

(** What the rendered page lets the user do. *)
Definition visible (sys : Sys) (a : Action) : bool :=
  let h := hooks sys in
  match a with
  | TypeAuthToken _ | ClickConnect => negb (isConnected h)
  | ClickFetchChatRooms | ClickExit => isConnected h
  | ClickJoin roomId =>
      isConnected h && existsb (fun room => room_id room =? roomId) (chatRooms h)
  | ClickLeave | TypeInputMessage _ | SelectFile _ | ClickSendText
  | ClickSendFile => isConnected h && inRoom h
  | _ => true
  end.

Section Reach.
Variable gate : Sys -> Action -> bool.

Inductive reach : Sys -> Prop :=
| reach_init : reach init
| reach_step sys a :
    reach sys -> gate sys a = true -> reach (next sys a).

Fixpoint allowed (sys : Sys) (l : list Action) : bool :=
  match l with
  | [] => true
  | a :: l' => gate sys a && allowed (next sys a) l'
  end.
End Reach.

(** Every operation may be called at any time. *)
Definition reachable : Sys -> Prop := reach enabled.

(** Only what the page shows is called. *)
Definition shown : Sys -> Prop :=
  reach (fun sys a => enabled sys a && visible sys a).

(** The two message pushes. *)
Definition isPush (a : Action) : bool :=
  match a with
  | SocketEvent _ (EvNewMessage _) | SocketEvent _ (EvNewMessages _) => true
  | _ => false
  end.

(** The outside as in [enabled], with the server pushing messages only
    while a room is current. *)
Definition pushesInRoom (sys : Sys) (a : Action) : bool :=
  enabled sys a && (negb (isPush a) || inRoom (hooks sys)).

(** ** A session to run the handlers on

    The token is pasted, the socket connects, the room list arrives, room
    r1 is joined and one text message comes in. *)
Definition summary (id : string) : ChatRoom :=
  {| room_id := id; room_name := id; participantsCount := 2%Z;
     unreadMessageCount := 0%Z; lastMessage := ""; timeAgo := "" |}.

Definition hello : Message :=
  {| type := TEXT; sender := None; content := Some "hi"; file_info := None;
     sentAt := 0%Z |}.

Definition pasteToken : list Action := [TypeAuthToken "T1"].

Definition goOnline : list Action :=
  pasteToken ++ [SocketEvent 0 EvConnect].

Definition enterR1 : list Action :=
  goOnline ++ [ClickFetchChatRooms;
               RoomsResponse (Some [summary "r1"; summary "r2"]);
               ClickJoin "r1"].

Definition session : list Action :=
  enterR1 ++ [SocketEvent 0 (EvNewMessage hello)].

(** A file to select. *)
Definition notes : File :=
  {| name := "notes.txt"; mime := "text/plain"; size := 0%Z |}.

(** The socket exists and has not connected yet. *)
Definition connecting : Sys := run init pasteToken.

(** Connected, no room joined. *)
Definition connected : Sys := run init goOnline.

(** Inside r1, one message in the log. *)
Definition chatting : Sys := run init session.

(** Inside r1 with a message typed. *)
Definition typing : Sys := run init (session ++ [TypeInputMessage "hi"]).

(** Inside r1 when the connection drops. *)
Definition dropped : Sys := run init (session ++ [SocketEvent 0 EvDisconnect]).

(** A message pushed before any room is joined. *)
Definition strayPush : Sys :=
  run init (goOnline ++ [SocketEvent 0 (EvNewMessage hello)]).

(** What holds of every state the component can be in: a socket that was
    ever created left a handle in [socket] (the handle is never reset), the
    flag is only raised by a created socket, and the current room is never
    the empty string. *)
Definition wellFormed (sys : Sys) : Prop :=
  (0 < created (env sys) -> socket (hooks sys) <> None) /\
  (isConnected (hooks sys) = true -> socket (hooks sys) <> None) /\
  (forall room, currentRoom (hooks sys) = Some room -> truthy room = true).

(** What exit puts out: [disconnect()] on the stored socket and, when the
    token was not empty, the clean-up of the connect effect. *)
Definition exitLog (sys : Sys) : list Effect :=
  (match socket (hooks sys) with Some s => [Disconnect s] | None => [] end) ++
  (if "" =? authToken (hooks sys) then []
   else match cleanupSocket sys with Some c => [Disconnect c] | None => [] end).

Definition isDisconnect (x : Effect) : bool :=
  match x with Disconnect _ => true | _ => false end.

Definition isLeaveRoom (x : Effect) : bool :=
  match x with Emit _ (LeaveRoom _) => true | _ => false end.

Definition isEmit (x : Effect) : bool :=
  match x with Emit _ _ => true | _ => false end.

(** ** Who sent a message

    [isOwnMessage] as the page computes it for every entry of the log:
    [currentUser?.id === msg.sender?.id]. On a missing object [?.] gives
    undefined, and two undefined are [===]. *)
Definition isOwnMessage (currentUser : option User) (msg : Message) : bool :=
  match option_map user_id currentUser, option_map sender_id (sender msg) with
  | Some a, Some b => Z.eqb a b
  | None, None => true
  | _, _ => false
  end.

(** ** Classes of actions *)

Definition isReaderDone (a : Action) : bool :=
  match a with ReaderDone _ _ => true | _ => false end.


(** The actions that can run [connectSocket]. *)
Definition opensSocket (a : Action) : bool :=
  match a with TypeAuthToken _ | ClickConnect => true | _ => false end.

(** The actions that can run [disconnect()]. *)
Definition closesSocket (a : Action) : bool :=
  match a with TypeAuthToken _ | ClickExit => true | _ => false end.

(** The actions that write the log. *)
Definition writesLog (a : Action) : bool :=
  match a with
  | ClickJoin _ | ClickLeave | ClickExit => true
  | _ => isPush a
  end.


(** An emit goes to socket [s]. *)
Definition emitsOn (s : Socket) (x : Effect) : bool :=
  match x with Emit s' _ => Nat.eqb s' s | _ => true end.

(** What ties the stored handle to the sockets that exist: it is the last
    one [io] returned, [disconnect()] was only called on sockets that
    exist, the clean-up holds one of them, and a room is current only with
    a handle. *)
Definition handleIsNewest (sys : Sys) : Prop :=
  match socket (hooks sys) with
  | Some s => created (env sys) = S s
  | None => created (env sys) = 0 /\ currentRoom (hooks sys) = None
  end /\
  (forall c, cleanupSocket sys = Some c -> c < created (env sys)) /\
  (forall c, is_closed (env sys) c = true -> c < created (env sys)).

(** ** The sibling component

    src/src/ChatComponent.tsx has eight of the nine cells (no
    [currentUser]) and one effect (no user fetch). Its [connectSocket],
    [leaveRoom], [joinRoom], [sendTextMessage], [sendFileMessage],
    [fetchChatRooms] and listeners are those above; its exit does not
    reset a user. It is run on the same record, whose [currentUser] it
    never writes. *)
Module Sibling.

Definition exitChatApplication (h : Hooks) : Cmd :=
  (match socket h with Some s => disconnect s | None => skip end) ;;
  setAuthToken "" ;;
  setChatRooms [] ;;
  setCurrentRoom None ;;
  setMessages [] ;;
  setIsConnected false.

Definition handle (a : Action) (sys : Sys) : Cmd :=
  match a with
  | ClickExit => exitChatApplication (hooks sys)
  | UserResponse _ => skip
  | _ => handle a sys
  end.

Definition rerunEffects (cleanup : option Socket) (h : Hooks) : Cmd :=
  (match cleanup with Some s => disconnect s | None => skip end) ;;
  connectSocket h.

Definition step (sys : Sys) (a : Action) : Sys * list Effect :=
  let r1 := handle a sys (start (env sys)) in
  let h1 := commit (hooks sys) (queue r1) in
  if authToken h1 =? authToken (hooks sys) then
    ({| hooks := h1; cleanupSocket := cleanupSocket sys; env := renv r1 |},
     out r1)
  else
    let r2 := rerunEffects (cleanupSocket sys) h1 (start (renv r1)) in
    ({| hooks := commit h1 (queue r2); cleanupSocket := socket h1;
        env := renv r2 |},
     out r1 ++ out r2).

Definition next (sys : Sys) (a : Action) : Sys := fst (step sys a).
Definition emitted (sys : Sys) (a : Action) : list Effect := snd (step sys a).
Definition run (sys : Sys) (l : list Action) : Sys := fold_left next l sys.

End Sibling.


(** ** Runs and what they put out *)

(** Everything a run of actions puts out, in order. *)
Fixpoint trace (sys : Sys) (l : list Action) : list Effect :=
  match l with
  | [] => []
  | a :: l' => emitted sys a ++ trace (next sys a) l'
  end.

(** What a run of joins is to put on the wire of socket [s], starting with
    [cur] as the current room: before each join, a leave of the room
    joined just before. *)
Fixpoint wireOfJoins (s : Socket) (cur : option string) (rs : list string)
  : list Effect :=
  match rs with
  | [] => []
  | r :: rs' =>
      match cur with
      | Some c => [Emit s (LeaveRoom c)]
      | None => []
      end ++ Emit s (JoinRoom r) :: wireOfJoins s (Some r) rs'
  end.

(** A batched push, as delivered by socket [fst p]. *)
Definition pushBatch (p : Socket * list Message) : Action :=
  SocketEvent (fst p) (EvNewMessages (snd p)).

(** ** Evaluating a step *)

Lemma truthy_true s : s <> "" -> truthy s = true.
Proof. intros H. unfold truthy. apply negb_true_iff, String.eqb_neq, H. Qed.

Lemma truthy_empty : truthy "" = false.
Proof. reflexivity. Qed.

(** Project out of record literals and committed queues. *)
Ltac reduce_fields :=
  cbn [fold_left app apply_update fst snd queue out renv hooks env
       cleanupSocket socket authToken chatRooms currentRoom messages
       inputMessage file isConnected currentUser created closed readers
       userRequests roomRequests drop_reader user_answered rooms_answered].

(** Unfold the handler of a step down to its queue, log and environment. *)
Ltac run_step :=
  cbv beta iota zeta delta
    [next emitted step handle connectSocket fetchChatRooms fetchUserInfo
     exitChatApplication joinRoom leaveRoom sendTextMessage sendFileMessage
     listener onload rerunEffects andThen skip enqueue perform settle io emit
     disconnect readAsArrayBuffer getUser getChatRooms setSocket setAuthToken
     setChatRooms setCurrentRoom setMessages updMessages setInputMessage
     setFile setIsConnected setCurrentUser start commit];
  reduce_fields; rewrite ?String.eqb_refl, ?truthy_empty; reduce_fields.

(** Split on the innermost test the code still has to make. *)
Ltac step_case :=
  match goal with
  | |- context [match ?x with _ => _ end] =>
      lazymatch x with
      | context [match _ with _ => _ end] => fail
      | _ => destruct x eqn:?
      end
  end.

Ltac step_cases := run_step; repeat (step_case; run_step).

(** Settle a closed goal by running the model. *)
Ltac by_running := vm_compute; reflexivity.

Lemma sys_eta sys :
  {| hooks := hooks sys; cleanupSocket := cleanupSocket sys; env := env sys |}
  = sys.
Proof. destruct sys; reflexivity. Qed.

(** ** Reachability *)

Lemma reach_mono (g1 g2 : Sys -> Action -> bool) :
  (forall sys a, g1 sys a = true -> g2 sys a = true) ->
  forall sys, reach g1 sys -> reach g2 sys.
Proof.
  intros Hg sys H. induction H as [|sys a _ IH Ha].
  - apply reach_init.
  - apply reach_step; [exact IH | apply Hg, Ha].
Qed.

Lemma shown_reachable sys : shown sys -> reachable sys.
Proof.
  apply reach_mono. intros s a H. apply andb_true_iff in H. apply H.
Qed.

Lemma reach_run g l : forall sys,
  reach g sys -> allowed g sys l = true -> reach g (run sys l).
Proof.
  induction l as [|a l IH]; intros sys Hs Hl; cbn in *.
  - exact Hs.
  - apply andb_true_iff in Hl as [Ha Hl].
    apply IH; [apply reach_step; assumption | exact Hl].
Qed.

(** A state given by a trace from [init] is reached if the gate lets every
    action of the trace through. *)
Ltac replay := apply reach_run; [apply reach_init | by_running].

(** The session is one the page itself allows, at each of its stages. *)
Lemma session_shown :
  shown connecting /\ shown connected /\ shown chatting /\ shown typing /\
  shown dropped /\ shown strayPush.
Proof.
  repeat apply conj; try replay; by_running.
Qed.

Lemma active_created e s : active e s = true -> 0 < created e.
Proof.
  unfold active. intros H. apply andb_true_iff in H as [H _].
  apply Nat.ltb_lt in H. lia.
Qed.

Lemma wellFormed_init : wellFormed init.
Proof.
  repeat split; cbn; try discriminate. intros H; inversion H.
Qed.

Lemma wellFormed_step sys a :
  wellFormed sys -> enabled sys a = true -> wellFormed (next sys a).
Proof.
  unfold wellFormed. intros (Hc & Hi & Hr) He.
  destruct a; step_cases.
  all: repeat split; try discriminate; try assumption.
  all: try (intros ? [= <-]; assumption).
  all: try (intuition congruence).
  all: try (intros room E; apply Hr; congruence).
  intros _. apply Hc. cbn in He. eapply active_created, He.
Qed.

Lemma reachable_wellFormed sys : reachable sys -> wellFormed sys.
Proof.
  intros H. induction H as [|sys a _ IH Ha].
  - apply wellFormed_init.
  - apply wellFormed_step; assumption.
Qed.

(** In a reachable state a raised flag comes with a socket handle. *)
Lemma connected_has_socket sys :
  reachable sys -> isConnected (hooks sys) = true ->
  exists s, socket (hooks sys) = Some s.
Proof.
  intros Hr Hc. destruct (reachable_wellFormed sys Hr) as (_ & Hi & _).
  destruct (socket (hooks sys)) as [s|] eqn:E.
  - exists s; reflexivity.
  - exfalso. apply (Hi Hc). reflexivity.
Qed.

Lemma reachable_room_truthy sys room :
  reachable sys -> currentRoom (hooks sys) = Some room -> truthy room = true.
Proof.
  intros Hr. destruct (reachable_wellFormed sys Hr) as (_ & _ & H). apply H.
Qed.

(** ** Room membership *)

(** [joinRoom] with a handle, inside a room: leave, then join. *)
Lemma step_join_from_room sys s A B :
  socket (hooks sys) = Some s -> currentRoom (hooks sys) = Some A ->
  truthy A = true -> truthy B = true ->
  step sys (ClickJoin B) =
    ({| hooks := commit (hooks sys)
                   [UCurrentRoom None; UMessages (fun _ => []);
                    UCurrentRoom (Some B); UMessages (fun _ => [])];
        cleanupSocket := cleanupSocket sys; env := env sys |},
     [Emit s (LeaveRoom A); Emit s (JoinRoom B)]).
Proof.
  intros Hs HA tA tB. step_cases; congruence.
Qed.

(** [joinRoom] with a handle, outside any room: join only. *)
Lemma step_join_from_nowhere sys s B :
  socket (hooks sys) = Some s -> currentRoom (hooks sys) = None ->
  truthy B = true ->
  step sys (ClickJoin B) =
    ({| hooks := commit (hooks sys)
                   [UCurrentRoom (Some B); UMessages (fun _ => [])];
        cleanupSocket := cleanupSocket sys; env := env sys |},
     [Emit s (JoinRoom B)]).
Proof.
  intros Hs HA tB. step_cases; congruence.
Qed.

(** [leaveRoom] with a handle, inside a room. *)
Lemma step_leave sys s A :
  socket (hooks sys) = Some s -> currentRoom (hooks sys) = Some A ->
  truthy A = true ->
  step sys ClickLeave =
    ({| hooks := commit (hooks sys)
                   [UCurrentRoom None; UMessages (fun _ => [])];
        cleanupSocket := cleanupSocket sys; env := env sys |},
     [Emit s (LeaveRoom A)]).
Proof.
  intros Hs HA tA. step_cases; congruence.
Qed.

(** C1. From every connected state inside room A, joining a non-empty
    room B (B = A included) ends inside room B with an empty message log
    and puts on the wire exactly a leave-room for A followed by a join-room
    for B, both on the stored socket. *)
Theorem join_leaves_old_room_then_joins sys A B :
  reachable sys ->
  isConnected (hooks sys) = true ->
  currentRoom (hooks sys) = Some A ->
  B <> "" ->
  exists s,
    socket (hooks sys) = Some s /\
    currentRoom (hooks (next sys (ClickJoin B))) = Some B /\
    messages (hooks (next sys (ClickJoin B))) = [] /\
    emitted sys (ClickJoin B) = [Emit s (LeaveRoom A); Emit s (JoinRoom B)].
Proof.
  intros Hr Hc HA HB.
  destruct (connected_has_socket sys Hr Hc) as [s Hs].
  exists s. split; [exact Hs|].
  unfold next, emitted.
  rewrite (step_join_from_room sys s A B Hs HA
             (reachable_room_truthy sys A Hr HA) (truthy_true B HB)).
  repeat split.
Qed.

Lemma join_leaves_old_room_then_joins_witness :
  exists s,
    socket (hooks chatting) = Some s /\
    currentRoom (hooks (next chatting (ClickJoin "r2"))) = Some "r2" /\
    messages (hooks (next chatting (ClickJoin "r2"))) = [] /\
    emitted chatting (ClickJoin "r2")
    = [Emit s (LeaveRoom "r1"); Emit s (JoinRoom "r2")].
Proof.
  apply (join_leaves_old_room_then_joins chatting "r1" "r2").
  - replay.
  - by_running.
  - by_running.
  - discriminate.
Defined.

(** The scenario of the specification, step by step: the log is empty on
    entering r1, holds the message that arrives, and is empty again on
    entering r2, with r1's leave and r2's join on the wire. *)
Example session_log :
  messages (hooks (run init enterR1)) = [] /\
  currentRoom (hooks chatting) = Some "r1" /\
  messages (hooks chatting) = [hello] /\
  step chatting (ClickJoin "r2")
  = ({| hooks := {| socket := Some 0; authToken := "T1";
                    chatRooms := [summary "r1"; summary "r2"];
                    currentRoom := Some "r2"; messages := [];
                    inputMessage := ""; file := None; isConnected := true;
                    currentUser := None |};
        cleanupSocket := None;
        env := {| created := 1; closed := []; readers := [];
                  userRequests := 1; roomRequests := 0 |} |},
     [Emit 0 (LeaveRoom "r1"); Emit 0 (JoinRoom "r2")]).
Proof. repeat apply conj; by_running. Qed.

(** ** The message log *)

(** A push is appended whatever the current room is. *)
Lemma step_push sys s newMessages :
  step sys (SocketEvent s (EvNewMessages newMessages)) =
    ({| hooks := apply_update (hooks sys)
                   (UMessages (fun prevMessages => prevMessages ++ newMessages));
        cleanupSocket := cleanupSocket sys; env := env sys |}, []).
Proof. run_step. reflexivity. Qed.

Lemma step_push_one sys s message :
  step sys (SocketEvent s (EvNewMessage message)) =
    ({| hooks := apply_update (hooks sys)
                   (UMessages (fun prevMessages => prevMessages ++ [message]));
        cleanupSocket := cleanupSocket sys; env := env sys |}, []).
Proof. run_step. reflexivity. Qed.

Lemma inRoom_current h : inRoom h = true -> currentRoom h <> None.
Proof. unfold inRoom. destruct (currentRoom h); discriminate. Qed.

Lemma empty_log_step sys a :
  (currentRoom (hooks sys) = None -> messages (hooks sys) = []) ->
  negb (isPush a) || inRoom (hooks sys) = true ->
  currentRoom (hooks (next sys a)) = None -> messages (hooks (next sys a)) = [].
Proof.
  intros Inv Hg. apply orb_true_iff in Hg.
  destruct a as [ | | | | | | | | | |s ev| | | | ];
    try (step_cases; try discriminate; intuition congruence).
  destruct ev; step_cases; auto.
  all: destruct Hg as [Hg | Hg]; [discriminate Hg|].
  all: intros E; exfalso; exact (inRoom_current _ Hg E).
Qed.

(** C2, as the code has it. In every state reached while the server pushes
    messages only when a room is current, no current room means an empty
    message log: the initial state has it and every operation and every
    inbound event keeps it. (A single-message or batched push that arrives
    while no room is current is appended like any other.) *)
Theorem log_empty_outside_room sys :
  reach pushesInRoom sys ->
  currentRoom (hooks sys) = None -> messages (hooks sys) = [].
Proof.
  intros H. induction H as [|sys a _ IH Ha].
  - reflexivity.
  - apply andb_true_iff in Ha as [_ Ha]. apply empty_log_step; assumption.
Qed.

Lemma log_empty_outside_room_witness :
  messages (hooks (run init (session ++ [ClickLeave]))) = [].
Proof.
  apply (log_empty_outside_room (run init (session ++ [ClickLeave]))).
  - replay.
  - by_running.
Defined.

(** C2 as stated fails: connect, and let the server push one message
    before any room is joined. The state is one the page itself reaches;
    no room is current and the log holds the message. *)
Lemma push_outside_room_fills_log :
  shown strayPush /\
  reachable strayPush /\
  currentRoom (hooks strayPush) = None /\
  messages (hooks strayPush) = [hello].
Proof.
  assert (Hs : shown strayPush)
    by replay.
  split; [exact Hs|]. split; [apply shown_reachable, Hs|].
  split; by_running.
Qed.

(** ** What gates join and leave *)

(** C3, as the code has it. Without a socket handle, join (with any
    roomId) and leave put nothing on the wire and change nothing, whatever
    [isConnected] is: the handle, not the flag, is what both test. *)
Theorem join_and_leave_need_a_socket sys roomId :
  socket (hooks sys) = None ->
  step sys (ClickJoin roomId) = (sys, []) /\ step sys ClickLeave = (sys, []).
Proof.
  intros Hs. split; step_cases; try congruence; rewrite sys_eta; reflexivity.
Qed.

Lemma join_and_leave_need_a_socket_witness :
  step init (ClickJoin "r1") = (init, []) /\ step init ClickLeave = (init, []).
Proof.
  apply (join_and_leave_need_a_socket init "r1"). by_running.
Defined.

(** C3 as stated fails: with the flag down and a handle stored (the
    socket is still connecting, or it dropped), join emits and enters the
    room, and leave emits and leaves it. *)
Lemma join_and_leave_run_with_flag_down :
  (reachable connecting /\
   isConnected (hooks connecting) = false /\
   emitted connecting (ClickJoin "r1") = [Emit 0 (JoinRoom "r1")] /\
   currentRoom (hooks (next connecting (ClickJoin "r1"))) = Some "r1") /\
  (reachable dropped /\
   isConnected (hooks dropped) = false /\
   currentRoom (hooks dropped) = Some "r1" /\
   emitted dropped ClickLeave = [Emit 0 (LeaveRoom "r1")] /\
   currentRoom (hooks (next dropped ClickLeave)) = None).
Proof.
  repeat apply conj; try replay; by_running.
Qed.

(** ** One connection at a time *)

(** [connectSocket] does nothing on a blank token; otherwise it opens a
    socket and closes none. *)
Lemma connectSocket_blank h r : authToken h = "" -> connectSocket h r = r.
Proof. intros H. unfold connectSocket. rewrite H. reflexivity. Qed.

Lemma connectSocket_opens h r :
  truthy (authToken h) = true ->
  out (connectSocket h r) = out r ++ [Io (authToken h) (created (renv r))] /\
  created (renv (connectSocket h r)) = S (created (renv r)) /\
  closed (renv (connectSocket h r)) = closed (renv r).
Proof.
  intros H. unfold connectSocket. rewrite H.
  repeat split.
Qed.

(** C4 on the code. Typing a token "T" and then "T1" runs the connect
    effect twice: its clean-up holds the [socket] of the render before the
    first connection existed, disconnects nothing, and both sockets stay
    active. The Connect button calls [connectSocket] with no clean-up at
    all. A third token closes the first socket only. *)
Theorem second_connect_keeps_first_socket :
  shown (run init [TypeAuthToken "T"; TypeAuthToken "T1"]) /\
  emitted (run init [TypeAuthToken "T"]) (TypeAuthToken "T1")
  = [Get "/user" "T1"; Io "T1" 1] /\
  active_sockets (env (run init [TypeAuthToken "T"; TypeAuthToken "T1"]))
  = [0; 1] /\
  shown (run init [TypeAuthToken "T"; ClickConnect]) /\
  emitted (run init [TypeAuthToken "T"]) ClickConnect = [Io "T" 1] /\
  active_sockets (env (run init [TypeAuthToken "T"; ClickConnect])) = [0; 1] /\
  emitted (run init [TypeAuthToken "T"; TypeAuthToken "T1"])
    (TypeAuthToken "T12")
  = [Disconnect 0; Get "/user" "T12"; Io "T12" 2] /\
  active_sockets (env (run init [TypeAuthToken "T"; TypeAuthToken "T1";
                                 TypeAuthToken "T12"])) = [1; 2].
Proof.
  repeat apply conj; try replay; by_running.
Qed.

(** ** Exit *)

Lemma emitted_exit sys : emitted sys ClickExit = exitLog sys.
Proof. unfold exitLog. step_cases; reflexivity. Qed.

Lemma hooks_exit sys :
  hooks (next sys ClickExit) =
  {| socket := socket (hooks sys); authToken := ""; chatRooms := [];
     currentRoom := None; messages := []; inputMessage := inputMessage (hooks sys);
     file := file (hooks sys); isConnected := false; currentUser := None |}.
Proof. step_cases; congruence. Qed.

(** After exit [disconnect()] has been called on the stored socket. *)
Lemma exit_closes_socket sys s :
  socket (hooks sys) = Some s -> is_closed (env (next sys ClickExit)) s = true.
Proof.
  intros Hs. run_step. rewrite Hs. step_cases.
  all: unfold is_closed in *; reduce_fields; cbn [existsb].
  all: repeat match goal with H : existsb _ _ = true |- _ => rewrite H end.
  all: rewrite ?Nat.eqb_refl, ?orb_true_r; reflexivity.
Qed.

(** A second exit finds the socket closed and the token empty. *)
Lemma step_exit_again sys :
  authToken (hooks sys) = "" ->
  (forall s, socket (hooks sys) = Some s -> is_closed (env sys) s = true) ->
  step sys ClickExit =
    ({| hooks := commit (hooks sys)
                   [UAuthToken ""; UChatRooms []; UCurrentRoom None;
                    UMessages (fun _ => []); UIsConnected false;
                    UCurrentUser None];
        cleanupSocket := cleanupSocket sys; env := env sys |},
     match socket (hooks sys) with Some s => [Disconnect s] | None => [] end).
Proof.
  intros Ht Hc. run_step. rewrite Ht. cbn [String.eqb].
  destruct (socket (hooks sys)) as [s|] eqn:Hs; run_step.
  - rewrite (Hc s eq_refl). run_step. congruence.
  - congruence.
Qed.

(** C5. Exit from any state (so from every reachable one) leaves the
    token empty, the flag down, no current room, an empty log, no room
    summaries and no current user, as in the initial state; a second exit
    changes nothing at all and puts out at most [disconnect()] on the
    stored socket. *)
Theorem exit_resets_and_is_idempotent sys :
  (authToken (hooks (next sys ClickExit)) = authToken (hooks init) /\
   isConnected (hooks (next sys ClickExit)) = isConnected (hooks init) /\
   currentRoom (hooks (next sys ClickExit)) = currentRoom (hooks init) /\
   messages (hooks (next sys ClickExit)) = messages (hooks init) /\
   chatRooms (hooks (next sys ClickExit)) = chatRooms (hooks init) /\
   currentUser (hooks (next sys ClickExit)) = currentUser (hooks init)) /\
  (authToken (hooks (next sys ClickExit)) = "" /\
   isConnected (hooks (next sys ClickExit)) = false /\
   currentRoom (hooks (next sys ClickExit)) = None /\
   messages (hooks (next sys ClickExit)) = [] /\
   chatRooms (hooks (next sys ClickExit)) = [] /\
   currentUser (hooks (next sys ClickExit)) = None) /\
  next (next sys ClickExit) ClickExit = next sys ClickExit /\
  emitted (next sys ClickExit) ClickExit =
    match socket (hooks sys) with Some s => [Disconnect s] | None => [] end.
Proof.
  assert (Hh := hooks_exit sys).
  assert (Hsock : socket (hooks (next sys ClickExit)) = socket (hooks sys))
    by (rewrite Hh; reflexivity).
  assert (Htok : authToken (hooks (next sys ClickExit)) = "")
    by (rewrite Hh; reflexivity).
  assert (Hfix : commit (hooks (next sys ClickExit))
                   [UAuthToken ""; UChatRooms []; UCurrentRoom None;
                    UMessages (fun _ => []); UIsConnected false;
                    UCurrentUser None]
                 = hooks (next sys ClickExit))
    by (rewrite Hh; reflexivity).
  split; [rewrite Hh; repeat split|].
  split; [rewrite Hh; repeat split|].
  assert (Hstep := step_exit_again (next sys ClickExit) Htok).
  rewrite Hsock, Hfix in Hstep. specialize (Hstep (exit_closes_socket sys)).
  unfold next at 1, emitted. rewrite Hstep. cbn [fst snd].
  split; [apply sys_eta | reflexivity].
Qed.

(** Exit in the middle of the session, and exit again. *)
Example exit_twice :
  step chatting ClickExit
  = ({| hooks := {| socket := Some 0; authToken := ""; chatRooms := [];
                    currentRoom := None; messages := []; inputMessage := "";
                    file := None; isConnected := false; currentUser := None |};
        cleanupSocket := Some 0;
        env := {| created := 1; closed := [0]; readers := [];
                  userRequests := 1; roomRequests := 0 |} |},
     [Disconnect 0]) /\
  step (next chatting ClickExit) ClickExit
  = (next chatting ClickExit, [Disconnect 0]).
Proof. split; by_running. Qed.

(** C6. A batched push leaves the log as the old log followed by the batch,
    in the order given; a single push appends its one message. Nothing is
    reordered, merged or dropped. *)
Theorem pushes_append_in_order sys s B message :
  messages (hooks (next sys (SocketEvent s (EvNewMessages B))))
  = messages (hooks sys) ++ B /\
  messages (hooks (next sys (SocketEvent s (EvNewMessage message))))
  = messages (hooks sys) ++ [message].
Proof.
  unfold next. rewrite step_push, step_push_one. split; reflexivity.
Qed.

(** ** Sending *)

Lemma step_sendText sys s room :
  socket (hooks sys) = Some s -> currentRoom (hooks sys) = Some room ->
  truthy room = true -> truthy (inputMessage (hooks sys)) = true ->
  step sys ClickSendText =
    ({| hooks := apply_update (hooks sys) (UInputMessage "");
        cleanupSocket := cleanupSocket sys; env := env sys |},
     [Emit s (SendTextMessage room (inputMessage (hooks sys)))]).
Proof.
  intros Hs Hr tr ti. run_step. rewrite Hs, Hr, ti, tr. cbn [andb].
  run_step. rewrite <- Hs, <- Hr. reflexivity.
Qed.

Lemma step_ack sys response : step sys (Ack response) = (sys, []).
Proof. run_step. rewrite sys_eta. reflexivity. Qed.

(** C7. With an empty input or outside any room, sendText puts nothing on
    the wire and changes nothing. Connected, inside a room and with a
    non-empty input, it emits exactly one text-send request carrying the
    room and the input and leaves the input empty; the acknowledgement,
    whatever it says, changes nothing after that. *)
Theorem sendText_guards_then_sends sys room :
  (inputMessage (hooks sys) = "" \/ currentRoom (hooks sys) = None ->
   step sys ClickSendText = (sys, [])) /\
  (reachable sys ->
   isConnected (hooks sys) = true ->
   currentRoom (hooks sys) = Some room ->
   inputMessage (hooks sys) <> "" ->
   exists s,
     socket (hooks sys) = Some s /\
     emitted sys ClickSendText
     = [Emit s (SendTextMessage room (inputMessage (hooks sys)))] /\
     hooks (next sys ClickSendText)
     = apply_update (hooks sys) (UInputMessage "") /\
     env (next sys ClickSendText) = env sys /\
     forall response,
       step (next sys ClickSendText) (Ack response)
       = (next sys ClickSendText, [])).
Proof.
  split.
  - intros [Hi | Hr].
    + step_cases; try (rewrite sys_eta; reflexivity).
      rewrite Hi in *; discriminate.
    + step_cases; try (rewrite sys_eta; reflexivity). congruence.
  - intros Hr Hc Hroom Hi.
    destruct (connected_has_socket sys Hr Hc) as [s Hs].
    exists s. split; [exact Hs|].
    unfold next, emitted.
    rewrite (step_sendText sys s room Hs Hroom
               (reachable_room_truthy sys room Hr Hroom)
               (truthy_true _ Hi)).
    repeat split. intros response. apply step_ack.
Qed.

Lemma sendText_guards_then_sends_witness :
  step connected ClickSendText = (connected, []) /\
  exists s,
    socket (hooks typing) = Some s /\
    emitted typing ClickSendText
    = [Emit s (SendTextMessage "r1" (inputMessage (hooks typing)))] /\
    hooks (next typing ClickSendText)
    = apply_update (hooks typing) (UInputMessage "") /\
    env (next typing ClickSendText) = env typing /\
    forall response,
      step (next typing ClickSendText) (Ack response)
      = (next typing ClickSendText, []).
Proof.
  split.
  - apply (proj1 (sendText_guards_then_sends connected "r1")).
    right. by_running.
  - apply (proj2 (sendText_guards_then_sends typing "r1")).
    + replay.
    + by_running.
    + by_running.
    + discriminate.
Defined.

(** The two refusals and the send, on the session. *)
Example sendText_session :
  emitted chatting ClickSendText = [] /\
  emitted connected ClickSendText = [] /\
  emitted (run init (goOnline ++ [TypeInputMessage "hi"])) ClickSendText = [] /\
  emitted typing ClickSendText = [Emit 0 (SendTextMessage "r1" "hi")] /\
  inputMessage (hooks (next typing ClickSendText)) = "".
Proof. repeat apply conj; by_running. Qed.

(** [sendFileMessage] only starts the read. *)
Lemma step_sendFile sys :
  hooks (next sys ClickSendFile) = hooks sys /\
  (emitted sys ClickSendFile = [] \/
   exists f, file (hooks sys) = Some f /\
             emitted sys ClickSendFile = [ReadAsArrayBuffer f]).
Proof.
  step_cases; split; try reflexivity; try (left; reflexivity).
  right. eexists; split; reflexivity.
Qed.

(** A read that delivers a buffer is the one place where the file is sent
    and the selection cleared. *)
Lemma step_read_loaded sys i c arrayBuffer :
  nth_error (readers (env sys)) i = Some c ->
  emitted sys (ReaderDone i (Loaded (Some arrayBuffer)))
  = [Emit (r_socket c)
       (SendFileMessage (r_room c) (name (r_file c)) (mime (r_file c))
          (size (r_file c)) arrayBuffer)] /\
  file (hooks (next sys (ReaderDone i (Loaded (Some arrayBuffer))))) = None.
Proof. intros H. run_step. rewrite H. run_step. split; reflexivity. Qed.

(** C8. When the read started by sendFile fails, or ends without a
    result, nothing is put on the wire and no hook changes: the selected
    file stays selected. The click itself emits no file-send event either;
    it only starts the read. *)
Theorem failed_read_abandons_send sys i :
  (emitted sys (ReaderDone i Failed) = [] /\
   hooks (next sys (ReaderDone i Failed)) = hooks sys /\
   file (hooks (next sys (ReaderDone i Failed))) = file (hooks sys)) /\
  (emitted sys (ReaderDone i (Loaded None)) = [] /\
   hooks (next sys (ReaderDone i (Loaded None))) = hooks sys /\
   file (hooks (next sys (ReaderDone i (Loaded None)))) = file (hooks sys)) /\
  hooks (next sys ClickSendFile) = hooks sys /\
  existsb isEmit (emitted sys ClickSendFile) = false.
Proof.
  repeat split; step_cases; reflexivity.
Qed.

(** A file is selected and sent in r1; the read fails, or delivers. *)
Example sendFile_session :
  emitted (run init (session ++ [SelectFile (Some notes)])) ClickSendFile
  = [ReadAsArrayBuffer notes] /\
  step (run init (session ++ [SelectFile (Some notes); ClickSendFile]))
    (ReaderDone 0 Failed)
  = (run init (session ++ [SelectFile (Some notes)]), []) /\
  file (hooks (run init (session ++ [SelectFile (Some notes); ClickSendFile;
                                     ReaderDone 0 Failed]))) = Some notes /\
  emitted (run init (session ++ [SelectFile (Some notes); ClickSendFile]))
    (ReaderDone 0 (Loaded (Some [])))
  = [Emit 0 (SendFileMessage "r1" "notes.txt" "text/plain" 0 [])] /\
  file (hooks (run init (session ++ [SelectFile (Some notes); ClickSendFile;
                                     ReaderDone 0 (Loaded (Some []))]))) = None.
Proof. repeat apply conj; by_running. Qed.

(** C9. Exit leaves the stored socket handle as it was. So, with a handle
    stored and a non-empty roomId, a join right after exit emits join-room
    on that socket, on which [disconnect()] has been called, and makes
    roomId the current room. *)
Theorem exit_keeps_handle_so_join_still_emits sys s roomId :
  socket (hooks (next sys ClickExit)) = socket (hooks sys) /\
  (socket (hooks sys) = Some s ->
   roomId <> "" ->
   is_closed (env (next sys ClickExit)) s = true /\
   emitted (next sys ClickExit) (ClickJoin roomId)
   = [Emit s (JoinRoom roomId)] /\
   currentRoom (hooks (next (next sys ClickExit) (ClickJoin roomId)))
   = Some roomId).
Proof.
  assert (Hh := hooks_exit sys).
  split; [rewrite Hh; reflexivity|].
  intros Hs Hr. split; [apply exit_closes_socket, Hs|].
  unfold next at 2, emitted.
  rewrite (step_join_from_nowhere (next sys ClickExit) s roomId).
  - split; reflexivity.
  - rewrite Hh. exact Hs.
  - rewrite Hh. reflexivity.
  - apply truthy_true, Hr.
Qed.

Lemma exit_keeps_handle_so_join_still_emits_witness :
  socket (hooks (next chatting ClickExit)) = socket (hooks chatting) /\
  is_closed (env (next chatting ClickExit)) 0 = true /\
  emitted (next chatting ClickExit) (ClickJoin "r2")
  = [Emit 0 (JoinRoom "r2")] /\
  currentRoom (hooks (next (next chatting ClickExit) (ClickJoin "r2")))
  = Some "r2".
Proof.
  split.
  - apply (proj1 (exit_keeps_handle_so_join_still_emits chatting 0 "r2")).
  - apply (proj2 (exit_keeps_handle_so_join_still_emits chatting 0 "r2")).
    + by_running.
    + discriminate.
Defined.

(** C10. Whatever the state, a room being current or not, exit puts out
    only [disconnect()] calls (on the stored socket, and on the socket the
    effect clean-up holds when the token was set): no leave-room event, nor
    any other event, is emitted. *)
Theorem exit_emits_no_leave sys :
  emitted sys ClickExit = exitLog sys /\
  forallb isDisconnect (emitted sys ClickExit) = true /\
  existsb isLeaveRoom (emitted sys ClickExit) = false.
Proof.
  rewrite emitted_exit. unfold exitLog. split; [reflexivity|].
  destruct (socket (hooks sys)), ("" =? authToken (hooks sys)),
    (cleanupSocket sys); split; reflexivity.
Qed.

(** ** Room membership, beyond the switch of rooms *)

Lemma step_join_empty sys : step sys (ClickJoin "") = (sys, []).
Proof. step_cases; rewrite sys_eta; reflexivity. Qed.

Lemma step_leave_nowhere sys :
  currentRoom (hooks sys) = None -> step sys ClickLeave = (sys, []).
Proof.
  intros H. step_cases; try congruence; rewrite sys_eta; reflexivity.
Qed.

(** X1. Inside a room and with a socket handle, leave emits exactly one
    leave-room carrying the current room, on the stored socket, and ends
    with no room and an empty log; every other hook keeps its value. With
    no room current, leave does nothing, handle or not. *)
Theorem leave_emits_once_or_nothing sys :
  (currentRoom (hooks sys) = None -> step sys ClickLeave = (sys, [])) /\
  (forall s room,
     socket (hooks sys) = Some s ->
     currentRoom (hooks sys) = Some room ->
     room <> "" ->
     emitted sys ClickLeave = [Emit s (LeaveRoom room)] /\
     hooks (next sys ClickLeave)
     = apply_update (apply_update (hooks sys) (UCurrentRoom None))
         (UMessages (fun _ => [])) /\
     env (next sys ClickLeave) = env sys).
Proof.
  split; [apply step_leave_nowhere|].
  intros s room Hs Hr Ht. unfold next, emitted.
  rewrite (step_leave sys s room Hs Hr (truthy_true _ Ht)).
  repeat split.
Qed.

Lemma leave_emits_once_or_nothing_witness :
  step connected ClickLeave = (connected, []) /\
  emitted chatting ClickLeave = [Emit 0 (LeaveRoom "r1")] /\
  hooks (next chatting ClickLeave)
  = apply_update (apply_update (hooks chatting) (UCurrentRoom None))
      (UMessages (fun _ => [])) /\
  env (next chatting ClickLeave) = env chatting.
Proof.
  split.
  - apply (proj1 (leave_emits_once_or_nothing connected)). by_running.
  - apply (proj2 (leave_emits_once_or_nothing chatting) 0 "r1").
    + by_running.
    + by_running.
    + discriminate.
Defined.

(** X2. Join with the empty roomId does nothing in any state. Join with a
    handle and no room current emits exactly one join-room and no
    leave-room, and ends inside the room with an empty log. *)
Theorem join_guards_and_first_join sys s roomId :
  step sys (ClickJoin "") = (sys, []) /\
  (socket (hooks sys) = Some s ->
   currentRoom (hooks sys) = None ->
   roomId <> "" ->
   emitted sys (ClickJoin roomId) = [Emit s (JoinRoom roomId)] /\
   currentRoom (hooks (next sys (ClickJoin roomId))) = Some roomId /\
   messages (hooks (next sys (ClickJoin roomId))) = [] /\
   env (next sys (ClickJoin roomId)) = env sys).
Proof.
  split; [apply step_join_empty|].
  intros Hs Hr Ht. unfold next, emitted.
  rewrite (step_join_from_nowhere sys s roomId Hs Hr (truthy_true _ Ht)).
  repeat split.
Qed.

Lemma join_guards_and_first_join_witness :
  step connected (ClickJoin "") = (connected, []) /\
  emitted connected (ClickJoin "r1") = [Emit 0 (JoinRoom "r1")] /\
  currentRoom (hooks (next connected (ClickJoin "r1"))) = Some "r1" /\
  messages (hooks (next connected (ClickJoin "r1"))) = [] /\
  env (next connected (ClickJoin "r1")) = env connected.
Proof.
  split.
  - apply (proj1 (join_guards_and_first_join connected 0 "r1")).
  - apply (proj2 (join_guards_and_first_join connected 0 "r1")).
    + by_running.
    + by_running.
    + discriminate.
Defined.

(** X3. A join or a leave either changes nothing and emits nothing, or
    leaves the log empty: join then ends inside the room asked for, leave
    with no room. The log is never carried from one room to the next, not
    even when the same room is joined again. *)
Theorem room_change_empties_log sys roomId :
  (step sys (ClickJoin roomId) = (sys, []) \/
   currentRoom (hooks (next sys (ClickJoin roomId))) = Some roomId /\
   messages (hooks (next sys (ClickJoin roomId))) = [] /\
   emitted sys (ClickJoin roomId) <> []) /\
  (step sys ClickLeave = (sys, []) \/
   currentRoom (hooks (next sys ClickLeave)) = None /\
   messages (hooks (next sys ClickLeave)) = [] /\
   emitted sys ClickLeave <> []).
Proof.
  split; step_cases;
    first [ left; rewrite sys_eta; reflexivity
          | right; repeat split; discriminate ].
Qed.

(** ** What writes the log *)

(** X4. Only join, leave, exit and the two pushes write the message log:
    every other action leaves it as it was. Sending a text or a file, and
    the end of a file read, add nothing to it; what was sent shows only
    when the server pushes it back. *)
Theorem log_written_by_rooms_and_pushes sys a :
  writesLog a = false ->
  messages (hooks (next sys a)) = messages (hooks sys).
Proof.
  intros H. destruct a; try discriminate H; try (step_cases; reflexivity).
  destruct ev; try discriminate H; step_cases; reflexivity.
Qed.

Lemma log_written_by_rooms_and_pushes_witness :
  messages (hooks (next typing ClickSendText)) = messages (hooks typing).
Proof.
  apply (log_written_by_rooms_and_pushes typing ClickSendText). reflexivity.
Defined.

(** ** The stored handle and the sockets that exist *)

Lemma is_closed_add e s c :
  is_closed {| created := created e; closed := s :: closed e;
               readers := readers e; userRequests := userRequests e;
               roomRequests := roomRequests e |} c = true ->
  c = s \/ is_closed e c = true.
Proof.
  unfold is_closed; cbn [closed existsb]. intros H.
  apply orb_true_iff in H as [H | H]; [left | right; exact H].
  apply Nat.eqb_eq, H.
Qed.

Lemma handleIsNewest_init : handleIsNewest init.
Proof.
  repeat split; cbn; intros; discriminate.
Qed.

Ltac closed_cases :=
  unfold is_closed in *; cbn [closed existsb] in *;
  repeat match goal with
  | H : _ || _ = true |- _ => apply orb_true_iff in H; destruct H as [H | H]
  | H : (_ =? _)%nat = true |- _ => apply Nat.eqb_eq in H; subst
  | H : Some _ = Some _ |- _ => injection H as H; subst
  end.

Lemma handleIsNewest_step sys a :
  handleIsNewest sys -> handleIsNewest (next sys a).
Proof.
  unfold handleIsNewest. intros (Hs & Hc & Hd).
  destruct a; step_cases.
  all: repeat split; intros; try discriminate; try (apply Hs).
  all: closed_cases.
  all: repeat match goal with
       | H : existsb _ _ = true |- _ => apply Hd in H
       | H : cleanupSocket _ = Some _ |- _ => apply Hc in H
       end.
  all: try lia; try congruence.
  all: repeat match goal with
       | H : socket _ = Some _, H' : match socket _ with _ => _ end |- _ =>
           rewrite H in H'
       end.
  all: try specialize (Hc _ eq_refl); try lia.
Qed.

Lemma reach_handleIsNewest g sys : reach g sys -> handleIsNewest sys.
Proof.
  intros H. induction H as [|sys a _ IH _].
  - apply handleIsNewest_init.
  - apply handleIsNewest_step, IH.
Qed.

(** X5. In every reachable state the stored handle is the socket [io]
    returned last; with no handle stored no socket exists and no room is
    current; the socket held by the effect clean-up and every socket on
    which [disconnect()] was called exist. *)
Theorem stored_handle_is_newest sys :
  reachable sys ->
  (forall s, socket (hooks sys) = Some s -> created (env sys) = S s) /\
  (socket (hooks sys) = None ->
   created (env sys) = 0 /\ currentRoom (hooks sys) = None) /\
  (forall c, cleanupSocket sys = Some c -> c < created (env sys)) /\
  (forall c, is_closed (env sys) c = true -> c < created (env sys)).
Proof.
  intros H. destruct (reach_handleIsNewest _ _ H) as (Hs & Hc & Hd).
  split; [intros s E; rewrite E in Hs; exact Hs|].
  split; [intros E; rewrite E in Hs; exact Hs|].
  split; assumption.
Qed.

Lemma stored_handle_is_newest_witness :
  (forall s, socket (hooks chatting) = Some s -> created (env chatting) = S s) /\
  (socket (hooks chatting) = None ->
   created (env chatting) = 0 /\ currentRoom (hooks chatting) = None) /\
  (forall c, cleanupSocket chatting = Some c -> c < created (env chatting)) /\
  (forall c, is_closed (env chatting) c = true -> c < created (env chatting)).
Proof.
  apply (stored_handle_is_newest chatting). replay.
Defined.

(** Events are only ever emitted on the stored handle, but for the file
    that a finished read sends. *)
Lemma emits_on_stored sys a s e :
  isReaderDone a = false ->
  In (Emit s e) (emitted sys a) -> socket (hooks sys) = Some s.
Proof.
  intros Ha. destruct a; try discriminate Ha; step_cases; cbn [In].
  all: intuition (try discriminate; try congruence).
Qed.

(** X6. In a reachable state, whatever join, leave or sendText emit goes to
    the socket created last: a socket that a later connect superseded is
    never written to again, although its listeners stay in place. *)
Theorem emits_go_to_newest_socket sys a s e :
  reachable sys ->
  isReaderDone a = false ->
  In (Emit s e) (emitted sys a) ->
  socket (hooks sys) = Some s /\ created (env sys) = S s.
Proof.
  intros Hr Ha Hin.
  assert (Hs := emits_on_stored sys a s e Ha Hin).
  split; [exact Hs|].
  destruct (reach_handleIsNewest _ _ Hr) as (Hn & _ & _).
  rewrite Hs in Hn. exact Hn.
Qed.

Lemma emits_go_to_newest_socket_witness :
  socket (hooks chatting) = Some 0 /\ created (env chatting) = 1.
Proof.
  apply (emits_go_to_newest_socket chatting (ClickJoin "r2") 0 (JoinRoom "r2")).
  - replay.
  - reflexivity.
  - vm_compute. right. left. reflexivity.
Defined.

(** ** The connection flag *)

(** X7. The listeners of the connection events write the flag and nothing
    else: a drop or a failed connect lowers it, keeping handle, room and
    log; a connect that follows raises it again and leaves every other
    hook as before the drop. Neither puts anything on the wire (no room is
    joined again), and an exception event changes nothing at all. *)
Theorem connection_events_touch_only_the_flag sys s s' :
  step sys (SocketEvent s EvDisconnect)
  = ({| hooks := apply_update (hooks sys) (UIsConnected false);
        cleanupSocket := cleanupSocket sys; env := env sys |}, []) /\
  step sys (SocketEvent s EvConnectError)
  = step sys (SocketEvent s EvDisconnect) /\
  step (next sys (SocketEvent s EvDisconnect)) (SocketEvent s' EvConnect)
  = ({| hooks := apply_update (hooks sys) (UIsConnected true);
        cleanupSocket := cleanupSocket sys; env := env sys |}, []) /\
  step sys (SocketEvent s EvException) = (sys, []).
Proof.
  repeat apply conj; run_step; try reflexivity.
  rewrite sys_eta. reflexivity.
Qed.

(** ** Typing a token *)

Lemma hooks_eta h :
  {| socket := socket h; authToken := authToken h; chatRooms := chatRooms h;
     currentRoom := currentRoom h; messages := messages h;
     inputMessage := inputMessage h; file := file h;
     isConnected := isConnected h; currentUser := currentUser h |} = h.
Proof. destruct h; reflexivity. Qed.

(** X8. Setting the token to the value it has does nothing. Clearing it
    opens no socket and fetches nothing. Changing it to a non-empty value
    fetches the user with the new token and opens one socket with it,
    which becomes the stored handle. In both changes the one
    [disconnect()] that may run is on the socket the clean-up held, and the
    clean-up then holds the handle that was stored before the change. *)
Theorem token_change_reconnects sys v :
  (v = authToken (hooks sys) -> step sys (TypeAuthToken v) = (sys, [])) /\
  (v <> authToken (hooks sys) ->
   cleanupSocket (next sys (TypeAuthToken v)) = socket (hooks sys) /\
   authToken (hooks (next sys (TypeAuthToken v))) = v /\
   (v = "" ->
    emitted sys (TypeAuthToken v)
    = match cleanupSocket sys with Some c => [Disconnect c] | None => [] end /\
    socket (hooks (next sys (TypeAuthToken v))) = socket (hooks sys) /\
    created (env (next sys (TypeAuthToken v))) = created (env sys)) /\
   (v <> "" ->
    emitted sys (TypeAuthToken v)
    = match cleanupSocket sys with Some c => [Disconnect c] | None => [] end
      ++ [Get "/user" v; Io v (created (env sys))] /\
    socket (hooks (next sys (TypeAuthToken v))) = Some (created (env sys)) /\
    created (env (next sys (TypeAuthToken v))) = S (created (env sys)))).
Proof.
  split.
  - intros ->. run_step. rewrite hooks_eta, sys_eta. reflexivity.
  - intros Hv. apply String.eqb_neq in Hv.
    split; [run_step; rewrite Hv; reflexivity|].
    split; [step_cases; try congruence; reflexivity|].
    split.
    + intros ->. run_step. rewrite Hv. run_step.
      destruct (cleanupSocket sys) as [c|]; run_step; repeat split.
      destruct (is_closed (env sys) c); reflexivity.
    + intros Hne. apply truthy_true in Hne.
      run_step. rewrite Hv. run_step. rewrite Hne.
      destruct (cleanupSocket sys) as [c|]; run_step; repeat split.
      all: destruct (is_closed (env sys) c); reflexivity.
Qed.

Lemma token_change_reconnects_witness :
  step connecting (TypeAuthToken "T1") = (connecting, []) /\
  cleanupSocket (next connecting (TypeAuthToken "T2"))
  = socket (hooks connecting) /\
  emitted connecting (TypeAuthToken "T2")
  = match cleanupSocket connecting with
    | Some c => [Disconnect c]
    | None => []
    end ++ [Get "/user" "T2"; Io "T2" (created (env connecting))] /\
  emitted connecting (TypeAuthToken "")
  = match cleanupSocket connecting with
    | Some c => [Disconnect c]
    | None => []
    end.
Proof.
  split.
  - apply (proj1 (token_change_reconnects connecting "T1")). by_running.
  - assert (H2 : "T2" <> authToken (hooks connecting)) by (vm_compute; discriminate).
    assert (H0 : "" <> authToken (hooks connecting)) by (vm_compute; discriminate).
    destruct (proj2 (token_change_reconnects connecting "T2") H2)
      as (Hc & _ & _ & Hfull).
    destruct (proj2 (token_change_reconnects connecting "") H0)
      as (_ & _ & Hblank & _).
    split; [exact Hc|].
    split.
    + apply Hfull. discriminate.
    + apply Hblank. reflexivity.
Defined.

(** ** Sockets opened and closed *)

Lemma active_sockets_grow e :
  (forall c, is_closed e c = true -> c < created e) ->
  active_sockets {| created := S (created e); closed := closed e;
                    readers := readers e; userRequests := userRequests e;
                    roomRequests := roomRequests e |}
  = active_sockets e ++ [created e].
Proof.
  intros Hd. unfold active_sockets. cbn [created].
  rewrite seq_S, filter_app. cbn [Nat.add filter]. f_equal.
  - apply filter_ext_in. intros x Hx. apply in_seq in Hx.
    unfold active, is_closed. cbn [created closed]. f_equal.
    destruct (Nat.ltb_spec x (S (created e))), (Nat.ltb_spec x (created e));
      try reflexivity; lia.
  - unfold active. cbn [created].
    destruct (is_closed e (created e)) eqn:E.
    + apply Hd in E. lia.
    + unfold is_closed in *. cbn [closed]. rewrite E.
      destruct (Nat.ltb_spec (created e) (S (created e))); [reflexivity | lia].
Qed.

(** X9. The Connect button with a blank token does nothing. With a
    non-empty token, in a reachable state, it opens one socket with that
    token, stores its handle and calls [disconnect()] on none: the sockets
    that were active stay active, and the new one joins them. *)
Theorem connect_click_adds_a_socket sys :
  (authToken (hooks sys) = "" -> step sys ClickConnect = (sys, [])) /\
  (reachable sys ->
   authToken (hooks sys) <> "" ->
   emitted sys ClickConnect
   = [Io (authToken (hooks sys)) (created (env sys))] /\
   socket (hooks (next sys ClickConnect)) = Some (created (env sys)) /\
   active_sockets (env (next sys ClickConnect))
   = active_sockets (env sys) ++ [created (env sys)]).
Proof.
  split.
  - intros H.
    assert (Ht : truthy (authToken (hooks sys)) = false)
      by (rewrite H; reflexivity).
    run_step. rewrite Ht. run_step. rewrite sys_eta. reflexivity.
  - intros Hr Ht. apply truthy_true in Ht.
    destruct (reach_handleIsNewest _ _ Hr) as (_ & _ & Hd).
    run_step. rewrite Ht. run_step.
    repeat split. apply active_sockets_grow, Hd.
Qed.

Lemma connect_click_adds_a_socket_witness :
  step init ClickConnect = (init, []) /\
  emitted connecting ClickConnect
  = [Io (authToken (hooks connecting)) (created (env connecting))] /\
  socket (hooks (next connecting ClickConnect))
  = Some (created (env connecting)) /\
  active_sockets (env (next connecting ClickConnect))
  = active_sockets (env connecting) ++ [created (env connecting)].
Proof.
  split.
  - apply (proj1 (connect_click_adds_a_socket init)). reflexivity.
  - apply (proj2 (connect_click_adds_a_socket connecting)).
    + replay.
    + vm_compute. discriminate.
Defined.

(** X10. Exit calls [disconnect()] on the stored socket and, when the
    token was set, on the socket the effect clean-up holds; every other
    socket is as active after exit as it was before. *)
Theorem exit_spares_other_sockets sys c :
  socket (hooks sys) <> Some c ->
  cleanupSocket sys <> Some c ->
  active (env (next sys ClickExit)) c = active (env sys) c.
Proof.
  intros Hs Hc. step_cases; try reflexivity.
  all: unfold active, is_closed; cbn [created closed existsb].
  all: repeat match goal with
       | |- context [(?y =? ?x)%nat] =>
           replace (y =? x)%nat with false
             by (symmetry; apply Nat.eqb_neq; congruence)
       end.
  all: reflexivity.
Qed.

Lemma exit_spares_other_sockets_witness :
  active (env (next (run init [TypeAuthToken "T"; ClickConnect]) ClickExit)) 0
  = active (env (run init [TypeAuthToken "T"; ClickConnect])) 0.
Proof.
  apply (exit_spares_other_sockets
           (run init [TypeAuthToken "T"; ClickConnect]) 0);
    vm_compute; discriminate.
Defined.

(** After the token was typed and Connect clicked, exit leaves the first
    socket active; its connect event then raises the flag again. *)
Example exit_with_a_spare_socket :
  active_sockets (env (run init [TypeAuthToken "T"; ClickConnect; ClickExit]))
  = [0] /\
  enabled (run init [TypeAuthToken "T"; ClickConnect; ClickExit])
    (SocketEvent 0 EvConnect) = true /\
  isConnected (hooks (run init [TypeAuthToken "T"; ClickConnect; ClickExit;
                                SocketEvent 0 EvConnect])) = true.
Proof. repeat apply conj; by_running. Qed.

(** X11. Sockets are opened only by a token change and by the Connect
    button, and closed only by a token change and by exit: join, leave,
    the sends, the pushes and the answers to requests leave the sockets
    that exist, and the ones that are active, as they are. *)
Theorem rooms_and_sends_leave_sockets_alone sys a :
  (opensSocket a = false ->
   created (env (next sys a)) = created (env sys)) /\
  (closesSocket a = false ->
   closed (env (next sys a)) = closed (env sys)) /\
  (opensSocket a = false -> closesSocket a = false ->
   active_sockets (env (next sys a)) = active_sockets (env sys)).
Proof.
  assert (Ho : opensSocket a = false ->
               created (env (next sys a)) = created (env sys)).
  { intros H. destruct a; try discriminate H; step_cases; reflexivity. }
  assert (Hc : closesSocket a = false ->
               closed (env (next sys a)) = closed (env sys)).
  { intros H. destruct a; try discriminate H; step_cases; reflexivity. }
  split; [exact Ho|]. split; [exact Hc|].
  intros H1 H2. unfold active_sockets, active, is_closed.
  rewrite (Ho H1), (Hc H2). reflexivity.
Qed.

Lemma rooms_and_sends_leave_sockets_alone_witness :
  created (env (next chatting (ClickJoin "r2"))) = created (env chatting) /\
  closed (env (next chatting (ClickJoin "r2"))) = closed (env chatting) /\
  active_sockets (env (next chatting (ClickJoin "r2")))
  = active_sockets (env chatting).
Proof.
  destruct (rooms_and_sends_leave_sockets_alone chatting (ClickJoin "r2"))
    as (Ho & Hc & Ha).
  split; [apply Ho; reflexivity|].
  split; [apply Hc; reflexivity|].
  apply Ha; reflexivity.
Defined.

(** ** Sending a file *)

Lemma sendFile_starts_read sys s f room :
  socket (hooks sys) = Some s ->
  file (hooks sys) = Some f ->
  currentRoom (hooks sys) = Some room ->
  truthy room = true ->
  step sys ClickSendFile
  = ({| hooks := hooks sys; cleanupSocket := cleanupSocket sys;
        env := {| created := created (env sys); closed := closed (env sys);
                  readers := readers (env sys)
                             ++ [{| r_socket := s; r_file := f;
                                    r_room := room |}];
                  userRequests := userRequests (env sys);
                  roomRequests := roomRequests (env sys) |} |},
     [ReadAsArrayBuffer f]).
Proof.
  intros Hs Hf Hr Ht. run_step. rewrite Hs, Hf, Hr, Ht. run_step.
  reflexivity.
Qed.

(** X12. sendFile does nothing without a socket handle, without a selected
    file or without a current room. With all three it emits nothing yet
    and changes no hook (the file stays selected): it starts one read of
    the file, whose completion handler keeps the socket, the file and the
    room of the click. *)
Theorem sendFile_guards_then_reads sys :
  (socket (hooks sys) = None \/ file (hooks sys) = None \/
   currentRoom (hooks sys) = None ->
   step sys ClickSendFile = (sys, [])) /\
  (forall s f room,
     socket (hooks sys) = Some s ->
     file (hooks sys) = Some f ->
     currentRoom (hooks sys) = Some room ->
     room <> "" ->
     emitted sys ClickSendFile = [ReadAsArrayBuffer f] /\
     hooks (next sys ClickSendFile) = hooks sys /\
     readers (env (next sys ClickSendFile))
     = readers (env sys) ++ [{| r_socket := s; r_file := f; r_room := room |}]).
Proof.
  split.
  - intros H. step_cases; try (rewrite sys_eta; reflexivity).
    destruct H as [H | [H | H]]; congruence.
  - intros s f room Hs Hf Hr Ht. unfold next, emitted.
    rewrite (sendFile_starts_read sys s f room Hs Hf Hr (truthy_true _ Ht)).
    repeat split.
Qed.

Lemma sendFile_guards_then_reads_witness :
  step chatting ClickSendFile = (chatting, []) /\
  emitted (run init (session ++ [SelectFile (Some notes)])) ClickSendFile
  = [ReadAsArrayBuffer notes] /\
  hooks (next (run init (session ++ [SelectFile (Some notes)])) ClickSendFile)
  = hooks (run init (session ++ [SelectFile (Some notes)])) /\
  readers (env (next (run init (session ++ [SelectFile (Some notes)]))
                  ClickSendFile))
  = readers (env (run init (session ++ [SelectFile (Some notes)])))
    ++ [{| r_socket := 0; r_file := notes; r_room := "r1" |}].
Proof.
  split.
  - apply (proj1 (sendFile_guards_then_reads chatting)).
    right. left. by_running.
  - apply (proj2 (sendFile_guards_then_reads
                    (run init (session ++ [SelectFile (Some notes)])))
             0 notes "r1").
    + by_running.
    + by_running.
    + by_running.
    + discriminate.
Defined.

(** Only the end of a read removes a read in flight. *)
Lemma readers_kept sys a :
  isReaderDone a = false ->
  exists tail, readers (env (next sys a)) = readers (env sys) ++ tail.
Proof.
  intros H. destruct a; try discriminate H; step_cases.
  all: first [ exists []; rewrite app_nil_r; reflexivity
             | eexists; reflexivity ].
Qed.

Lemma readers_kept_run l : forall sys,
  forallb (fun a => negb (isReaderDone a)) l = true ->
  exists tail, readers (env (run sys l)) = readers (env sys) ++ tail.
Proof.
  induction l as [|a l IH]; intros sys H.
  - exists []. rewrite app_nil_r. reflexivity.
  - cbn [forallb] in H. change (run sys (a :: l)) with (run (next sys a) l).
    apply andb_true_iff in H as [Ha Hl]. apply negb_true_iff in Ha.
    destruct (readers_kept sys a Ha) as [t1 E1].
    destruct (IH (next sys a) Hl) as [t2 E2].
    exists (t1 ++ t2). rewrite E2, E1, app_assoc. reflexivity.
Qed.

(** X13. A file whose send was clicked in room r on socket s goes, when
    its read delivers, to room r on socket s, whatever happened in between
    short of another read ending: joining another room, leaving, exit, a
    new connection. The selection is cleared at that moment, whatever file
    is selected by then. *)
Theorem file_goes_where_send_was_clicked sys s f room l arrayBuffer :
  socket (hooks sys) = Some s ->
  file (hooks sys) = Some f ->
  currentRoom (hooks sys) = Some room ->
  room <> "" ->
  forallb (fun a => negb (isReaderDone a)) l = true ->
  emitted (run (next sys ClickSendFile) l)
    (ReaderDone (length (readers (env sys))) (Loaded (Some arrayBuffer)))
  = [Emit s (SendFileMessage room (name f) (mime f) (size f) arrayBuffer)] /\
  file (hooks (next (run (next sys ClickSendFile) l)
                 (ReaderDone (length (readers (env sys)))
                    (Loaded (Some arrayBuffer))))) = None.
Proof.
  intros Hs Hf Hr Ht Hl.
  assert (Hread : readers (env (next sys ClickSendFile))
                  = readers (env sys)
                    ++ [{| r_socket := s; r_file := f; r_room := room |}]).
  { unfold next.
    rewrite (sendFile_starts_read sys s f room Hs Hf Hr (truthy_true _ Ht)).
    reflexivity. }
  destruct (readers_kept_run l (next sys ClickSendFile) Hl) as [tail Htail].
  assert (Hnth : nth_error (readers (env (run (next sys ClickSendFile) l)))
                   (length (readers (env sys)))
                 = Some {| r_socket := s; r_file := f; r_room := room |}).
  { rewrite Htail, Hread, <- app_assoc.
    rewrite nth_error_app2 by apply Nat.le_refl.
    rewrite Nat.sub_diag. reflexivity. }
  apply (step_read_loaded _ _ _ arrayBuffer Hnth).
Qed.

Lemma file_goes_where_send_was_clicked_witness :
  emitted (run (next (run init (session ++ [SelectFile (Some notes)]))
                  ClickSendFile)
             [ClickJoin "r2"; ClickExit])
    (ReaderDone
       (length (readers (env (run init (session ++ [SelectFile (Some notes)])))))
       (Loaded (Some [])))
  = [Emit 0 (SendFileMessage "r1" (name notes) (mime notes) (size notes) [])] /\
  file (hooks (next (run (next (run init (session ++ [SelectFile (Some notes)]))
                            ClickSendFile)
                       [ClickJoin "r2"; ClickExit])
                 (ReaderDone
                    (length (readers (env (run init (session
                                                     ++ [SelectFile (Some notes)])))))
                    (Loaded (Some []))))) = None.
Proof.
  apply (file_goes_where_send_was_clicked
           (run init (session ++ [SelectFile (Some notes)]))
           0 notes "r1" [ClickJoin "r2"; ClickExit] []).
  - by_running.
  - by_running.
  - by_running.
  - discriminate.
  - reflexivity.
Defined.

(** ** Requests *)

(** Fetching the room list sends one GET for the rooms with the token of
    the render and changes no hook. Its answer replaces the list whatever
    the list was and touches nothing else; a failed answer, for the rooms
    or for the user, changes no hook. *)
Lemma room_list_is_replaced sys l :
  step sys ClickFetchChatRooms
  = ({| hooks := hooks sys; cleanupSocket := cleanupSocket sys;
        env := {| created := created (env sys); closed := closed (env sys);
                  readers := readers (env sys);
                  userRequests := userRequests (env sys);
                  roomRequests := S (roomRequests (env sys)) |} |},
     [Get "/chat/rooms" (authToken (hooks sys))]) /\
  hooks (next sys (RoomsResponse (Some l)))
  = apply_update (hooks sys) (UChatRooms l) /\
  chatRooms (hooks (next sys (RoomsResponse (Some l)))) = l /\
  emitted sys (RoomsResponse (Some l)) = [] /\
  hooks (next sys (RoomsResponse None)) = hooks sys /\
  hooks (next sys (UserResponse None)) = hooks sys.
Proof.
  repeat apply conj; run_step; reflexivity.
Qed.

(** X14. Exit cancels nothing: the requests and the file reads in flight
    before exit are in flight after it, their answers are still accepted,
    and a room list or a user that arrives after exit is stored, so that
    the list and the user that exit cleared are set again. *)
Theorem answers_after_exit_are_stored sys l u :
  readers (env (next sys ClickExit)) = readers (env sys) /\
  userRequests (env (next sys ClickExit)) = userRequests (env sys) /\
  roomRequests (env (next sys ClickExit)) = roomRequests (env sys) /\
  enabled (next sys ClickExit) (RoomsResponse (Some l))
  = enabled sys (RoomsResponse (Some l)) /\
  enabled (next sys ClickExit) (UserResponse (Some u))
  = enabled sys (UserResponse (Some u)) /\
  chatRooms (hooks (next (next sys ClickExit) (RoomsResponse (Some l)))) = l /\
  currentUser (hooks (next (next sys ClickExit) (UserResponse (Some u))))
  = Some u.
Proof.
  assert (Hr : readers (env (next sys ClickExit)) = readers (env sys))
    by (step_cases; reflexivity).
  assert (Hu : userRequests (env (next sys ClickExit)) = userRequests (env sys))
    by (step_cases; reflexivity).
  assert (Hq : roomRequests (env (next sys ClickExit)) = roomRequests (env sys))
    by (step_cases; reflexivity).
  split; [exact Hr|]. split; [exact Hu|]. split; [exact Hq|].
  split; [cbn [enabled]; rewrite Hq; reflexivity|].
  split; [cbn [enabled]; rewrite Hu; reflexivity|].
  generalize (next sys ClickExit). intros sys'.
  split; run_step; reflexivity.
Qed.

(** The room list asked for before exit arrives after it. *)
Example room_list_after_exit :
  chatRooms (hooks (run init (goOnline ++ [ClickFetchChatRooms; ClickExit])))
  = [] /\
  enabled (run init (goOnline ++ [ClickFetchChatRooms; ClickExit]))
    (RoomsResponse (Some [summary "r1"])) = true /\
  chatRooms (hooks (run init (goOnline
                              ++ [ClickFetchChatRooms; ClickExit;
                                  RoomsResponse (Some [summary "r1"])])))
  = [summary "r1"].
Proof. repeat apply conj; by_running. Qed.

(** ** Own and others' messages *)

(** X15. A message with no sender counts as the user's own exactly while no
    current user is loaded; a message with a sender counts as own exactly
    when a current user is loaded and has the sender's id. So before the
    user fetch is answered, and after exit, every system message is shown
    as own and no message with a sender is. *)
Theorem own_message_by_id_or_by_absence currentUser msg :
  (sender msg = None ->
   (isOwnMessage currentUser msg = true <-> currentUser = None)) /\
  (forall sd, sender msg = Some sd ->
     (isOwnMessage currentUser msg = true <->
      exists u, currentUser = Some u /\ user_id u = sender_id sd)).
Proof.
  unfold isOwnMessage. split.
  - intros ->. destruct currentUser; cbn; split; intros H;
      first [discriminate | reflexivity].
  - intros sd ->. destruct currentUser as [u|]; cbn; split.
    + intros H. exists u. split; [reflexivity | apply Z.eqb_eq, H].
    + intros (u' & [= <-] & E). apply Z.eqb_eq, E.
    + discriminate.
    + intros (u' & E & _). discriminate E.
Qed.

Lemma own_message_by_id_or_by_absence_witness :
  (isOwnMessage None hello = true <-> @None User = None) /\
  (isOwnMessage None
     {| type := TEXT;
        sender := Some {| sender_id := 7; sender_name := "kim";
                          sender_profileImageUrl := None |};
        content := Some "hi"; file_info := None; sentAt := 0%Z |} = true <->
   exists u, @None User = Some u /\ user_id u = 7%Z).
Proof.
  split.
  - apply (proj1 (own_message_by_id_or_by_absence None hello)). reflexivity.
  - apply (proj2 (own_message_by_id_or_by_absence None
                    {| type := TEXT;
                       sender := Some {| sender_id := 7; sender_name := "kim";
                                         sender_profileImageUrl := None |};
                       content := Some "hi"; file_info := None;
                       sentAt := 0%Z |})
             {| sender_id := 7; sender_name := "kim";
                sender_profileImageUrl := None |}).
    reflexivity.
Defined.

(** ** The two components *)






(** The sibling on the session: no user is fetched. *)
Example sibling_session :
  Sibling.emitted init (TypeAuthToken "T1") = [Io "T1" 0] /\
  emitted init (TypeAuthToken "T1") = [Get "/user" "T1"; Io "T1" 0] /\
  Sibling.emitted (Sibling.run init session) ClickExit = [Disconnect 0].
Proof. repeat apply conj; by_running. Qed.


(** ** The page and the wire *)

(** X17. On the page, whatever a click or a keystroke puts on the wire is
    emitted while the flag is up: join, leave and the sends are offered
    only in a render with [isConnected] true. (A file read that ends later
    is no click and can still emit with the flag down.) *)
Theorem page_emits_only_while_connected sys a :
  visible sys a = true ->
  isReaderDone a = false ->
  existsb isEmit (emitted sys a) = true ->
  isConnected (hooks sys) = true.
Proof.
  intros Hv Ha He. destruct a; try discriminate Ha; cbn [visible] in Hv.
  all: try (apply andb_true_iff in Hv; destruct Hv as [Hv _]; exact Hv).
  all: revert He; step_cases; cbn [existsb isEmit orb]; intros He;
       try discriminate He.
Qed.

Lemma page_emits_only_while_connected_witness :
  isConnected (hooks chatting) = true.
Proof.
  apply (page_emits_only_while_connected chatting ClickLeave); by_running.
Defined.

(** ** Runs of pushes and of joins *)

(** X18. Batches pushed one after the other, by whichever sockets, leave
    the log as the old log followed by the batches in the order of
    arrival, each in its own order; nothing is put on the wire. *)
Theorem pushes_accumulate_in_arrival_order l : forall sys,
  messages (hooks (run sys (map pushBatch l)))
  = messages (hooks sys) ++ concat (map snd l) /\
  trace sys (map pushBatch l) = [].
Proof.
  induction l as [|p l IH]; intros sys.
  - cbn. rewrite app_nil_r. split; reflexivity.
  - cbn [map concat trace].
    change (run sys (pushBatch p :: map pushBatch l))
      with (run (next sys (pushBatch p)) (map pushBatch l)).
    destruct (IH (next sys (pushBatch p))) as [Hm Ht].
    rewrite Hm, Ht. unfold pushBatch, next, emitted.
    rewrite step_push. cbn [fst snd hooks apply_update messages].
    rewrite app_assoc. split; reflexivity.
Qed.

Lemma step_join_with_handle sys s r :
  socket (hooks sys) = Some s ->
  (forall c, currentRoom (hooks sys) = Some c -> truthy c = true) ->
  truthy r = true ->
  step sys (ClickJoin r)
  = ({| hooks := commit (hooks sys)
                   [UCurrentRoom (Some r); UMessages (fun _ => [])];
        cleanupSocket := cleanupSocket sys; env := env sys |},
     wireOfJoins s (currentRoom (hooks sys)) [r]).
Proof.
  intros Hs Hc Hr. destruct (currentRoom (hooks sys)) as [c|] eqn:E.
  - rewrite (step_join_from_room sys s c r Hs E (Hc c eq_refl) Hr).
    reflexivity.
  - rewrite (step_join_from_nowhere sys s r Hs E Hr). reflexivity.
Qed.

Lemma joins_run rs : forall sys s,
  socket (hooks sys) = Some s ->
  (forall c, currentRoom (hooks sys) = Some c -> truthy c = true) ->
  forallb truthy rs = true ->
  trace sys (map ClickJoin rs) = wireOfJoins s (currentRoom (hooks sys)) rs /\
  socket (hooks (run sys (map ClickJoin rs))) = Some s /\
  (rs <> [] ->
   currentRoom (hooks (run sys (map ClickJoin rs))) = Some (last rs "") /\
   messages (hooks (run sys (map ClickJoin rs))) = []).
Proof.
  induction rs as [|r rs IH]; intros sys s Hs Hc Hrs.
  - split; [reflexivity|]. split; [exact Hs|]. intros H; contradiction H.
    reflexivity.
  - cbn [forallb] in Hrs. apply andb_true_iff in Hrs as [Hr Hrs].
    cbn [map trace].
    change (run sys (ClickJoin r :: map ClickJoin rs))
      with (run (next sys (ClickJoin r)) (map ClickJoin rs)).
    assert (Hstep := step_join_with_handle sys s r Hs Hc Hr).
    assert (Hs' : socket (hooks (next sys (ClickJoin r))) = Some s)
      by (unfold next; rewrite Hstep; exact Hs).
    assert (Hroom : currentRoom (hooks (next sys (ClickJoin r))) = Some r)
      by (unfold next; rewrite Hstep; reflexivity).
    assert (Hlog : messages (hooks (next sys (ClickJoin r))) = [])
      by (unfold next; rewrite Hstep; reflexivity).
    assert (Hc' : forall c, currentRoom (hooks (next sys (ClickJoin r)))
                            = Some c -> truthy c = true)
      by (intros c Ec; rewrite Hroom in Ec; injection Ec as <-; exact Hr).
    destruct (IH (next sys (ClickJoin r)) s Hs' Hc' Hrs) as (Ht & Hsk & Hlast).
    split; [|split].
    + rewrite Ht, Hroom. unfold emitted. rewrite Hstep.
      cbn [snd wireOfJoins]. rewrite <- app_assoc. reflexivity.
    + exact Hsk.
    + intros _. destruct rs as [|r' rs'].
      * split; [exact Hroom | exact Hlog].
      * apply Hlast. discriminate.
Qed.

(** X19. A run of joins with non-empty room ids, from a state with a
    socket handle, puts on the wire of that socket one join per id, each
    but the first (when no room was current) preceded by the leave of the
    room current just before; no room is left twice or left without having
    been current. At the end the last id is the current room and the log is
    empty. *)
Theorem joins_alternate_with_leaves sys s rs :
  socket (hooks sys) = Some s ->
  (forall c, currentRoom (hooks sys) = Some c -> c <> "") ->
  forallb truthy rs = true ->
  trace sys (map ClickJoin rs) = wireOfJoins s (currentRoom (hooks sys)) rs /\
  (rs <> [] ->
   currentRoom (hooks (run sys (map ClickJoin rs))) = Some (last rs "") /\
   messages (hooks (run sys (map ClickJoin rs))) = []).
Proof.
  intros Hs Hc Hrs.
  destruct (joins_run rs sys s Hs) as (Ht & _ & Hl).
  - intros c E. apply truthy_true, (Hc c E).
  - exact Hrs.
  - split; assumption.
Qed.

Lemma joins_alternate_with_leaves_witness :
  trace chatting (map ClickJoin ["r2"; "r2"; "r1"])
  = wireOfJoins 0 (currentRoom (hooks chatting)) ["r2"; "r2"; "r1"] /\
  (["r2"; "r2"; "r1"] <> [] ->
   currentRoom (hooks (run chatting (map ClickJoin ["r2"; "r2"; "r1"])))
   = Some (last ["r2"; "r2"; "r1"] "") /\
   messages (hooks (run chatting (map ClickJoin ["r2"; "r2"; "r1"]))) = []).
Proof.
  apply (joins_alternate_with_leaves chatting 0 ["r2"; "r2"; "r1"]).
  - by_running.
  - intros c E. vm_compute in E. injection E as <-. discriminate.
  - reflexivity.
Defined.

(** The wire of the three joins. *)
Example three_joins :
  trace chatting (map ClickJoin ["r2"; "r2"; "r1"])
  = [Emit 0 (LeaveRoom "r1"); Emit 0 (JoinRoom "r2");
     Emit 0 (LeaveRoom "r2"); Emit 0 (JoinRoom "r2");
     Emit 0 (LeaveRoom "r2"); Emit 0 (JoinRoom "r1")].
Proof. by_running. Qed.

(** X20. Joining another room keeps the typed text: with a socket handle
    and a non-empty text typed in room A, a join of room B followed by
    sendText emits the text to room B, and only then is the input
    emptied. *)
Theorem typed_text_follows_the_user sys s A B :
  socket (hooks sys) = Some s ->
  currentRoom (hooks sys) = Some A ->
  A <> "" ->
  B <> "" ->
  inputMessage (hooks sys) <> "" ->
  inputMessage (hooks (next sys (ClickJoin B))) = inputMessage (hooks sys) /\
  emitted (next sys (ClickJoin B)) ClickSendText
  = [Emit s (SendTextMessage B (inputMessage (hooks sys)))] /\
  inputMessage (hooks (run sys [ClickJoin B; ClickSendText])) = "".
Proof.
  intros Hs HA tA tB Hi.
  apply truthy_true in tA, tB, Hi.
  assert (Hj := step_join_from_room sys s A B Hs HA tA tB).
  assert (Hin : inputMessage (hooks (next sys (ClickJoin B)))
                = inputMessage (hooks sys))
    by (unfold next; rewrite Hj; reflexivity).
  assert (Hsend := step_sendText (next sys (ClickJoin B)) s B).
  rewrite Hin in Hsend.
  assert (Hst : step (next sys (ClickJoin B)) ClickSendText
                = ({| hooks := apply_update (hooks (next sys (ClickJoin B)))
                                 (UInputMessage "");
                      cleanupSocket := cleanupSocket (next sys (ClickJoin B));
                      env := env (next sys (ClickJoin B)) |},
                   [Emit s (SendTextMessage B (inputMessage (hooks sys)))])).
  { apply Hsend; try assumption; unfold next; rewrite Hj;
      first [exact Hs | reflexivity]. }
  split; [exact Hin|]. split.
  - unfold emitted. rewrite Hst. reflexivity.
  - change (run sys [ClickJoin B; ClickSendText])
      with (next (next sys (ClickJoin B)) ClickSendText).
    unfold next at 1. rewrite Hst. reflexivity.
Qed.

Lemma typed_text_follows_the_user_witness :
  inputMessage (hooks (next typing (ClickJoin "r2")))
  = inputMessage (hooks typing) /\
  emitted (next typing (ClickJoin "r2")) ClickSendText
  = [Emit 0 (SendTextMessage "r2" (inputMessage (hooks typing)))] /\
  inputMessage (hooks (run typing [ClickJoin "r2"; ClickSendText])) = "".
Proof.
  apply (typed_text_follows_the_user typing 0 "r1" "r2").
  - by_running.
  - by_running.
  - discriminate.
  - discriminate.
  - vm_compute. discriminate.
Defined.
